(** * A Redis-backed JSON cache service and its workflow coordinator

    Shallow embedding of
      - [app/models/item.py], [app/models/response.py]
      - [app/core/cache.py]
      - [app/api/v1/endpoints.py]
      - [client/client.py]
      - [scripts/workflow.py]

    Python values are modelled as they are used by the code: text as
    [string], integers as [Z], [None]-able values as [option], dictionaries
    decoded from or encoded to JSON as the [json] documents below, and
    raised exceptions as the error branch of [result].  The Redis server,
    the [json] module and the HTTP framework are collaborators of the
    code; they are modelled from their documented behaviour, each in a
    module of its own, so that the endpoint functions can be read next to
    the Python they embed.

    Conventions of the model:
      - time is counted in whole seconds, and one request is handled at
        one instant;
      - JSON numbers are the integers;
      - [str] of an [HTTPException] is [status_code: detail], as in
        Starlette, and model validation is pydantic's version 2;
      - [KEYS] patterns and pipelines are those of the Redis server and
        of its client. *)

From Stdlib Require Import ZArith String Ascii List Bool Lia Decimal DecimalN.
From stdpp Require Import gmap strings.

Import ListNotations.
Local Open Scope string_scope.
Local Open Scope Z_scope.

(* ===================================================================== *)
(** ** Text helpers *)
(* ===================================================================== *)

Module Text.

(** The double quote character (code 34) and the backslash (code 92). *)
Definition dquote : ascii := "034"%char.
Definition bslash : ascii := "092"%char.

(** The one-character string [c]. *)
Definition chr (c : ascii) : string := String c EmptyString.

(** [strip p s] removes the prefix [p] from [s], when [s] starts with it. *)
Fixpoint strip (p s : string) : option string :=
  match p with
  | EmptyString => Some s
  | String a p' =>
      match s with
      | String b s' => if Ascii.eqb a b then strip p' s' else None
      | EmptyString => None
      end
  end.

Definition starts_with (p s : string) : bool :=
  match strip p s with Some _ => true | None => false end.

(** Python's [sub in s] on text. *)
Fixpoint contains (sub s : string) : bool :=
  starts_with sub s ||
  match s with
  | EmptyString => false
  | String _ s' => contains sub s'
  end.

(** Decimal rendering of an integer, as [str(n)] and [json.dumps(n)]
    produce it. *)
Fixpoint digits (d : uint) : string :=
  match d with
  | Nil => EmptyString
  | D0 d => String "0" (digits d)
  | D1 d => String "1" (digits d)
  | D2 d => String "2" (digits d)
  | D3 d => String "3" (digits d)
  | D4 d => String "4" (digits d)
  | D5 d => String "5" (digits d)
  | D6 d => String "6" (digits d)
  | D7 d => String "7" (digits d)
  | D8 d => String "8" (digits d)
  | D9 d => String "9" (digits d)
  end.

Definition str_N (n : N) : string := digits (N.to_uint n).

Definition str_Z (n : Z) : string :=
  if n <? 0 then String "-" (str_N (Z.abs_N n)) else str_N (Z.abs_N n).

Definition is_digit (c : ascii) : bool :=
  let n := nat_of_ascii c in (48 <=? n)%nat && (n <=? 57)%nat.

(** The longest run of decimal digits at the head of [s], and what
    follows it. *)
Fixpoint read_digits (s : string) : uint * string :=
  match s with
  | EmptyString => (Nil, EmptyString)
  | String c r =>
      let k (f : uint -> uint) := let '(d, r') := read_digits r in (f d, r') in
      if Ascii.eqb c "0" then k D0 else
      if Ascii.eqb c "1" then k D1 else
      if Ascii.eqb c "2" then k D2 else
      if Ascii.eqb c "3" then k D3 else
      if Ascii.eqb c "4" then k D4 else
      if Ascii.eqb c "5" then k D5 else
      if Ascii.eqb c "6" then k D6 else
      if Ascii.eqb c "7" then k D7 else
      if Ascii.eqb c "8" then k D8 else
      if Ascii.eqb c "9" then k D9 else
      (Nil, s)
  end.

(** [s] does not begin with a decimal digit. *)
Definition no_digit_head (s : string) : bool :=
  match s with
  | EmptyString => true
  | String c _ => negb (is_digit c)
  end.

(** A decimal numeral without leading zeros: [0] itself, or a numeral
    whose first digit is not [0]. *)
Definition canonical (d : uint) : Prop :=
  match d with
  | Nil => False
  | D0 Nil => True
  | D0 _ => False
  | _ => True
  end.

End Text.

(* ===================================================================== *)
(** ** JSON documents and Python's [json] module *)
(* ===================================================================== *)

(** Values that [json.loads] yields and [json.dumps] accepts.  A [JDict]
    lists the items of a Python [dict] in insertion order.  Numbers are
    the integers; floating-point literals are outside this model and
    [loads] treats them as undecodable. *)
#[local] Unset Elimination Schemes.
Inductive json : Type :=
| JNull
| JBool (b : bool)
| JInt (n : Z)
| JStr (s : string)
| JList (l : list json)
| JDict (items : list (string * json)).
#[local] Set Elimination Schemes.

Module Json.
Import Text.

(** *** Encoding: [json.dumps] with its default separators *)

Definition hex_digit (n : N) : ascii :=
  match n with
  | 0 => "0" | 1 => "1" | 2 => "2" | 3 => "3" | 4 => "4" | 5 => "5"
  | 6 => "6" | 7 => "7" | 8 => "8" | 9 => "9" | 10 => "a" | 11 => "b"
  | 12 => "c" | 13 => "d" | 14 => "e" | _ => "f"
  end%N%char.

(** [ensure_ascii] escaping of one character. *)
Definition escape_char (c : ascii) : string :=
  let n := N_of_ascii c in
  if Ascii.eqb c dquote then String bslash (chr dquote)
  else if Ascii.eqb c bslash then String bslash (chr bslash)
  else if Ascii.eqb c "010" then String bslash "n"
  else if Ascii.eqb c "013" then String bslash "r"
  else if Ascii.eqb c "009" then String bslash "t"
  else if Ascii.eqb c "008" then String bslash "b"
  else if Ascii.eqb c "012" then String bslash "f"
  else if (32 <=? n)%N && (n <=? 126)%N then chr c
  else String bslash
         (String "u" (String "0" (String "0"
            (String (hex_digit (n / 16)) (chr (hex_digit (n mod 16))))))).

Fixpoint escape (s : string) : string :=
  match s with
  | EmptyString => EmptyString
  | String c s' => escape_char c +:+ escape s'
  end.

Definition quote (s : string) : string :=
  String dquote (escape s +:+ chr dquote).

Fixpoint dumps (j : json) : string :=
  match j with
  | JNull => "null"
  | JBool b => if b then "true" else "false"
  | JInt n => str_Z n
  | JStr s => quote s
  | JList l =>
      String "["
        match l with
        | [] => "]"
        | x :: l' =>
            dumps x +:+
            (fix tail (l : list json) : string :=
               match l with
               | [] => "]"
               | y :: l'' => ", " +:+ dumps y +:+ tail l''
               end) l'
        end
  | JDict items =>
      String "{"
        match items with
        | [] => "}"
        | (k, x) :: items' =>
            quote k +:+ ": " +:+ dumps x +:+
            (fix tail (l : list (string * json)) : string :=
               match l with
               | [] => "}"
               | (k', y) :: l'' =>
                   ", " +:+ quote k' +:+ ": " +:+ dumps y +:+ tail l''
               end) items'
        end
  end.

(** *** Decoding: [json.loads] *)

Definition is_ws (c : ascii) : bool :=
  Ascii.eqb c " " || Ascii.eqb c "009" || Ascii.eqb c "010" || Ascii.eqb c "013".

Fixpoint skip_ws (s : string) : string :=
  match s with
  | String c r => if is_ws c then skip_ws r else s
  | EmptyString => EmptyString
  end.

Definition hex_value (c : ascii) : option N :=
  let n := N_of_ascii c in
  if (48 <=? n)%N && (n <=? 57)%N then Some (n - 48)%N
  else if (97 <=? n)%N && (n <=? 102)%N then Some (n - 87)%N
  else if (65 <=? n)%N && (n <=? 70)%N then Some (n - 55)%N
  else None.

(** The character a [\uXXXX] escape denotes, for code points below 256
    (the characters a [string] holds). *)
Definition code_point (h1 h2 h3 h4 : ascii) : option ascii :=
  match hex_value h1, hex_value h2, hex_value h3, hex_value h4 with
  | Some a, Some b, Some c, Some d =>
      if (a =? 0)%N && (b =? 0)%N then Some (ascii_of_N (16 * c + d)) else None
  | _, _, _, _ => None
  end.

Definition unescape (e : ascii) : option ascii :=
  if Ascii.eqb e dquote then Some dquote
  else if Ascii.eqb e bslash then Some bslash
  else if Ascii.eqb e "/" then Some "/"%char
  else if Ascii.eqb e "n" then Some "010"%char
  else if Ascii.eqb e "r" then Some "013"%char
  else if Ascii.eqb e "t" then Some "009"%char
  else if Ascii.eqb e "b" then Some "008"%char
  else if Ascii.eqb e "f" then Some "012"%char
  else None.

Definition push (c : ascii) (r : option (string * string)) :
  option (string * string) :=
  match r with
  | Some (t, rest) => Some (String c t, rest)
  | None => None
  end.

(** The characters of a string literal after its opening quote, up to
    and including the closing quote. *)
Fixpoint parse_chars (s : string) : option (string * string) :=
  match s with
  | EmptyString => None
  | String c r =>
      if Ascii.eqb c dquote then Some (EmptyString, r)
      else if Ascii.eqb c bslash then
        match r with
        | EmptyString => None
        | String e r1 =>
            if Ascii.eqb e "u" then
              match r1 with
              | String h1 (String h2 (String h3 (String h4 r2))) =>
                  match code_point h1 h2 h3 h4 with
                  | Some c' => push c' (parse_chars r2)
                  | None => None
                  end
              | _ => None
              end
            else
              match unescape e with
              | Some c' => push c' (parse_chars r1)
              | None => None
              end
        end
      else if (N_of_ascii c <? 32)%N then None
      else push c (parse_chars r)
  end.

(** An integer literal: no leading zeros, an optional minus sign. *)
Definition parse_nat (s : string) : option (N * string) :=
  match read_digits s with
  | (Nil, _) => None
  | (D0 Nil, r) => Some (0%N, r)
  | (D0 _, _) => None
  | (d, r) => Some (N.of_uint d, r)
  end.

Definition parse_int (s : string) : option (Z * string) :=
  match s with
  | String c r =>
      if Ascii.eqb c "-" then
        match parse_nat r with
        | Some (n, r') => Some (- Z.of_N n, r')
        | None => None
        end
      else
        match parse_nat s with
        | Some (n, r') => Some (Z.of_N n, r')
        | None => None
        end
  | EmptyString => None
  end.

(** Recursive descent; [fuel] bounds the number of values, elements
    and members visited.  The text handed to [parse_value] starts at
    the value (the caller has skipped white space). *)
Fixpoint parse_value (fuel : nat) (s : string) {struct fuel} :
  option (json * string) :=
  match fuel with
  | O => None
  | S f =>
      match s with
      | EmptyString => None
      | String c r =>
          if Ascii.eqb c "[" then
            match skip_ws r with
            | String c' r' =>
                if Ascii.eqb c' "]" then Some (JList [], r')
                else
                  match parse_elems f (String c' r') with
                  | Some (l, r'') => Some (JList l, r'')
                  | None => None
                  end
            | EmptyString => None
            end
          else if Ascii.eqb c "{" then
            match skip_ws r with
            | String c' r' =>
                if Ascii.eqb c' "}" then Some (JDict [], r')
                else
                  match parse_members f (String c' r') with
                  | Some (m, r'') => Some (JDict m, r'')
                  | None => None
                  end
            | EmptyString => None
            end
          else if Ascii.eqb c dquote then
            match parse_chars r with
            | Some (t, r') => Some (JStr t, r')
            | None => None
            end
          else if Ascii.eqb c "n" then
            match strip "ull" r with
            | Some r' => Some (JNull, r')
            | None => None
            end
          else if Ascii.eqb c "t" then
            match strip "rue" r with
            | Some r' => Some (JBool true, r')
            | None => None
            end
          else if Ascii.eqb c "f" then
            match strip "alse" r with
            | Some r' => Some (JBool false, r')
            | None => None
            end
          else
            match parse_int s with
            | Some (n, r') => Some (JInt n, r')
            | None => None
            end
      end
  end

(** The elements of a non-empty array, after its opening bracket. *)
with parse_elems (fuel : nat) (s : string) {struct fuel} :
  option (list json * string) :=
  match fuel with
  | O => None
  | S f =>
      match parse_value f s with
      | Some (v, r) =>
          match skip_ws r with
          | String c r' =>
              if Ascii.eqb c "]" then Some ([v], r')
              else if Ascii.eqb c "," then
                match parse_elems f (skip_ws r') with
                | Some (l, r'') => Some (v :: l, r'')
                | None => None
                end
              else None
          | EmptyString => None
          end
      | None => None
      end
  end

(** The members of a non-empty object, after its opening brace. *)
with parse_members (fuel : nat) (s : string) {struct fuel} :
  option (list (string * json) * string) :=
  match fuel with
  | O => None
  | S f =>
      match s with
      | String q r =>
          if Ascii.eqb q dquote then
            match parse_chars r with
            | Some (k, r1) =>
                match skip_ws r1 with
                | String c r2 =>
                    if Ascii.eqb c ":" then
                      match parse_value f (skip_ws r2) with
                      | Some (v, r3) =>
                          match skip_ws r3 with
                          | String c' r4 =>
                              if Ascii.eqb c' "}" then Some ([(k, v)], r4)
                              else if Ascii.eqb c' "," then
                                match parse_members f (skip_ws r4) with
                                | Some (m, r5) => Some ((k, v) :: m, r5)
                                | None => None
                                end
                              else None
                          | EmptyString => None
                          end
                      | None => None
                      end
                    else None
                | EmptyString => None
                end
            | None => None
            end
          else None
      | EmptyString => None
      end
  end.

(** [json.loads]: one value, white space around it, nothing else.
    [None] stands for [json.JSONDecodeError]. *)
Definition loads (s : string) : option json :=
  match parse_value (S (String.length s)) (skip_ws s) with
  | Some (j, r) =>
      match skip_ws r with
      | EmptyString => Some j
      | String _ _ => None
      end
  | None => None
  end.

(** *** Measures used to bound the decoder's fuel *)

(** The text after the first element of an encoded array, and after
    the first member of an encoded object. *)
Fixpoint dumps_tail (l : list json) : string :=
  match l with
  | [] => "]"
  | y :: l' => ", " +:+ dumps y +:+ dumps_tail l'
  end.

Fixpoint dumps_mtail (m : list (string * json)) : string :=
  match m with
  | [] => "}"
  | (k, y) :: m' => ", " +:+ quote k +:+ ": " +:+ dumps y +:+ dumps_mtail m'
  end.

(** The number of values, elements and members of a document. *)
Fixpoint size (j : json) : nat :=
  match j with
  | JList l =>
      S ((fix sum (l : list json) : nat :=
            match l with [] => O | x :: l' => S (size x + sum l') end) l)
  | JDict m =>
      S ((fix sum (m : list (string * json)) : nat :=
            match m with [] => O | (_, x) :: m' => S (size x + sum m') end) m)
  | _ => 1%nat
  end.

Fixpoint size_elems (l : list json) : nat :=
  match l with [] => O | x :: l' => S (size x + size_elems l') end.

Fixpoint size_members (m : list (string * json)) : nat :=
  match m with [] => O | (_, x) :: m' => S (size x + size_members m') end.

(** Characters that cannot begin an encoded value. *)
Definition closer (c : ascii) : bool :=
  is_ws c || Ascii.eqb c "]" || Ascii.eqb c "}".

(** [j] is decoded from its encoding, whatever follows it. *)
Definition decodes (j : json) : Prop :=
  forall fuel rest,
    (size j <= fuel)%nat -> no_digit_head rest = true ->
    parse_value fuel (dumps j +:+ rest) = Some (j, rest).

End Json.

(* ===================================================================== *)
(** ** Python exceptions and fallible computations *)
(* ===================================================================== *)

(** The exception classes the code raises, catches or lets through.
    [ConnectionError], [ResponseError] and [DataError] are those of
    [redis.exceptions]; [ValidationError] is pydantic's. *)
Inductive exn : Type :=
| HTTPException (status_code : Z) (detail : string)
| JSONDecodeError (msg : string)
| KeyError (key : string)
| TypeError (msg : string)
| ValueError (msg : string)
| ValidationError (msg : string)
| ConnectionError (msg : string)
| ResponseError (msg : string)
| DataError (msg : string)
| TimeoutError (msg : string)
| Exception (msg : string).

Inductive result (A : Type) : Type :=
| Return (a : A)
| Raise (e : exn).
Arguments Return {A} a.
Arguments Raise {A} e.

Module Py.
Import Text.

(** [str(e)].  Starlette's [HTTPException] renders as
    [status_code: detail]; a [KeyError] renders the [repr] of its key. *)
Definition str (e : exn) : string :=
  match e with
  | HTTPException status_code detail => str_Z status_code +:+ ": " +:+ detail
  | KeyError key => "'" +:+ key +:+ "'"
  | JSONDecodeError msg | TypeError msg | ValueError msg
  | ValidationError msg | ConnectionError msg | ResponseError msg
  | DataError msg | TimeoutError msg | Exception msg => msg
  end.

(** [str(x)] of a value that may be [None], as an f-string renders it. *)
Definition str_opt (x : option string) : string :=
  match x with Some s => s | None => "None" end.

(** [d.get(k)] on a dictionary given by its items in insertion order;
    a later item with the same key replaces an earlier one. *)
Fixpoint dict_get (d : list (string * json)) (k : string) : option json :=
  match d with
  | [] => None
  | (k', v) :: d' =>
      match dict_get d' k with
      | Some v' => Some v'
      | None => if String.eqb k' k then Some v else None
      end
  end.

(** [x[k]] with a text subscript. *)
Definition getitem (x : json) (k : string) : result json :=
  match x with
  | JDict d =>
      match dict_get d k with
      | Some v => Return v
      | None => Raise (KeyError k)
      end
  | JList _ => Raise (TypeError "list indices must be integers or slices, not str")
  | JStr _ => Raise (TypeError "string indices must be integers, not 'str'")
  | JInt _ => Raise (TypeError "'int' object is not subscriptable")
  | JBool _ => Raise (TypeError "'bool' object is not subscriptable")
  | JNull => Raise (TypeError "'NoneType' object is not subscriptable")
  end.

(** Python's [x == s] for a text [s]. *)
Definition eq_str (x : json) (s : string) : bool :=
  match x with
  | JStr t => String.eqb t s
  | _ => false
  end.

Definition opt_eq_str (x : option json) (s : string) : bool :=
  match x with
  | Some v => eq_str v s
  | None => false
  end.

(** Truth value of a dictionary: non-empty. *)
Definition truthy (d : list (string * json)) : bool :=
  match d with [] => false | _ :: _ => true end.

Definition lower_char (c : ascii) : ascii :=
  let n := nat_of_ascii c in
  if (65 <=? n)%nat && (n <=? 90)%nat then ascii_of_nat (n + 32) else c.

Fixpoint lower (s : string) : string :=
  match s with
  | EmptyString => EmptyString
  | String c s' => String (lower_char c) (lower s')
  end.

(** *** Rendering values in f-strings *)

Definition hex2 (c : ascii) : string :=
  let n := N_of_ascii c in
  String (Json.hex_digit (n / 16)) (chr (Json.hex_digit (n mod 16))).

(** [repr(s)] of a text: single quotes, unless the text has a single
    quote and no double quote. *)
Definition repr_str (s : string) : string :=
  let q := if contains "'" s && negb (contains (chr dquote) s)
           then dquote else "'"%char in
  let esc (c : ascii) : string :=
    if Ascii.eqb c q || Ascii.eqb c bslash then String bslash (chr c)
    else if Ascii.eqb c "010" then String bslash "n"
    else if Ascii.eqb c "013" then String bslash "r"
    else if Ascii.eqb c "009" then String bslash "t"
    else if (N_of_ascii c <? 32)%N || (N_of_ascii c =? 127)%N
         then String bslash (String "x" (hex2 c))
    else chr c in
  let fix go (s : string) : string :=
    match s with
    | EmptyString => chr q
    | String c s' => esc c +:+ go s'
    end in
  String q (go s).

Fixpoint repr (x : json) : string :=
  match x with
  | JNull => "None"
  | JBool b => if b then "True" else "False"
  | JInt n => str_Z n
  | JStr s => repr_str s
  | JList l =>
      String "["
        match l with
        | [] => "]"
        | x :: l' =>
            repr x +:+
            (fix tail (l : list json) : string :=
               match l with
               | [] => "]"
               | y :: l'' => ", " +:+ repr y +:+ tail l''
               end) l'
        end
  | JDict items =>
      String "{"
        match items with
        | [] => "}"
        | (k, x) :: items' =>
            repr_str k +:+ ": " +:+ repr x +:+
            (fix tail (l : list (string * json)) : string :=
               match l with
               | [] => "}"
               | (k', y) :: l'' =>
                   ", " +:+ repr_str k' +:+ ": " +:+ repr y +:+ tail l''
               end) items'
        end
  end.

(** What an f-string writes for [{x}], where [x] is the result of
    [d.get(k)]: the text itself, [None], or the [repr] of other values. *)
Definition format (x : option json) : string :=
  match x with
  | None => "None"
  | Some (JStr s) => s
  | Some v => repr v
  end.

(** *** The clock: [datetime.now(UTC)] *)

(** A reading of the clock, in whole seconds since the epoch. *)
Definition instant := Z.

Definition pad (width : nat) (n : Z) : string :=
  let s := str_Z n in
  let fix zeros (k : nat) : string :=
    match k with O => EmptyString | S k' => String "0" (zeros k') end in
  zeros (width - String.length s)%nat +:+ s.

(** Proleptic Gregorian date of a day number (days since 1970-01-01). *)
Definition civil_from_days (z : Z) : Z * Z * Z :=
  let z := z + 719468 in
  let era := z / 146097 in
  let doe := z - era * 146097 in
  let yoe := (doe - doe / 1460 + doe / 36524 - doe / 146096) / 365 in
  let y := yoe + era * 400 in
  let doy := doe - (365 * yoe + yoe / 4 - yoe / 100) in
  let mp := (5 * doy + 2) / 153 in
  let d := doy - (153 * mp + 2) / 5 + 1 in
  let m := if mp <? 10 then mp + 3 else mp - 9 in
  (if m <=? 2 then y + 1 else y, m, d).

(** [datetime.isoformat()] of a UTC-aware reading with no fractional
    second. *)
Definition isoformat (t : instant) : string :=
  let '(y, m, d) := civil_from_days (t / 86400) in
  let s := t mod 86400 in
  pad 4 y +:+ "-" +:+ pad 2 m +:+ "-" +:+ pad 2 d +:+ "T" +:+
  pad 2 (s / 3600) +:+ ":" +:+ pad 2 (s mod 3600 / 60) +:+ ":" +:+
  pad 2 (s mod 60) +:+ "+00:00".

End Py.

(* ===================================================================== *)
(** ** The backing store: a Redis server *)
(* ===================================================================== *)

(** The server is known to the code through the commands it issues.
    Their behaviour is that of the Redis command reference and of the
    [redis] client: [SETEX] rejects a non-positive expiry, the client
    refuses to encode [None] as a command argument, [TTL] answers [-2]
    for a missing key and [-1] for a key without expiry, [DEL] and
    [EXISTS] answer a count.  Time is counted in whole seconds. *)
Module Redis.

Record entry : Type := { value : string; expire_at : option Z }.

(** [outage] holds the transport failure every command currently meets,
    if any. *)
Record server : Type := { db : gmap string entry; outage : option string }.

Definition live (now : Z) (e : entry) : bool :=
  match expire_at e with
  | None => true
  | Some t => now <? t
  end.

(** The entry under [name] that has not expired at [now]. *)
Definition lookup (now : Z) (s : server) (name : string) : option entry :=
  match db s !! name with
  | Some e => if live now e then Some e else None
  | None => None
  end.

Definition is_Some_b {A : Type} (x : option A) : bool :=
  match x with Some _ => true | None => false end.

Definition command {A : Type} (s : server) (run : result A * server) :
  result A * server :=
  match outage s with
  | Some msg => (Raise (ConnectionError msg), s)
  | None => run
  end.

Definition setex (now : Z) (name : string) (time : option Z) (value : string)
  (s : server) : result bool * server :=
  command s
    match time with
    | None =>
        (Raise (DataError
           "Invalid input of type: 'NoneType'. Convert to a bytes, string, int or float first."),
         s)
    | Some seconds =>
        if seconds <=? 0
        then (Raise (ResponseError "invalid expire time in 'setex' command"), s)
        else (Return true,
              {| db := <[name := {| value := value;
                                    expire_at := Some (now + seconds) |}]> (db s);
                 outage := outage s |})
    end.

Definition get (now : Z) (name : string) (s : server) :
  result (option string) * server :=
  command s (Return (value <$> lookup now s name), s).

Definition ttl (now : Z) (name : string) (s : server) : result Z * server :=
  command s
    (Return match lookup now s name with
            | None => -2
            | Some e =>
                match expire_at e with
                | None => -1
                | Some t => t - now
                end
            end, s).

Definition delete (now : Z) (name : string) (s : server) : result Z * server :=
  command s
    (Return (if is_Some_b (lookup now s name) then 1 else 0),
     {| db := base.delete name (db s); outage := outage s |}).

Definition exists_ (now : Z) (name : string) (s : server) : result Z * server :=
  command s (Return (if is_Some_b (lookup now s name) then 1 else 0), s).

Definition ping (s : server) : result bool * server :=
  command s (Return true, s).

(** *** [KEYS]: glob-style patterns

    A pattern is matched as the server matches it: [*] stands for any
    run of characters, [?] for one character, [[...]] for one character
    of a class (with [^] for its complement, [a-z] for a range and a
    backslash to quote a member), a backslash quotes the next
    character, and every other character stands for itself. *)

Fixpoint all_stars (p : string) : bool :=
  match p with
  | EmptyString => true
  | String a p' => Ascii.eqb a "*" && all_stars p'
  end.

Definition is_empty (s : string) : bool :=
  match s with EmptyString => true | String _ _ => false end.

(** [c] lies between [a] and [b], in either order. *)
Definition in_range (a b c : ascii) : bool :=
  let lo := N.min (N_of_ascii a) (N_of_ascii b) in
  let hi := N.max (N_of_ascii a) (N_of_ascii b) in
  ((lo <=? N_of_ascii c) && (N_of_ascii c <=? hi))%N.

(** Where the matcher is: in front of the text [text], or inside a class
    that is tried against the character [c], with [text] after it. *)
Inductive glob_state : Type :=
| Plain (text : string)
| Class (negate matched : bool) (c : ascii) (text : string).

Fixpoint glob (p : string) (st : glob_state) {struct p} : bool :=
  match st with
  | Plain s =>
      match p with
      | EmptyString => is_empty s
      | String a p1 =>
          match s with
          | EmptyString => all_stars p
          | String c s' =>
              if Ascii.eqb a "*" then
                all_stars p1 ||
                (fix try (t : string) : bool :=
                   match t with
                   | EmptyString => false
                   | String _ t' => glob p1 (Plain t) || try t'
                   end) s
              else if Ascii.eqb a "?" then glob p1 (Plain s')
              else if Ascii.eqb a "[" then
                match p1 with
                | String b p2 =>
                    if Ascii.eqb b "^" then glob p2 (Class true false c s')
                    else glob p1 (Class false false c s')
                | EmptyString => false
                end
              else if Ascii.eqb a "\" then
                match p1 with
                | String b p2 => Ascii.eqb b c && glob p2 (Plain s')
                | EmptyString => Ascii.eqb a c && is_empty s'
                end
              else Ascii.eqb a c && glob p1 (Plain s')
          end
      end
  | Class negate matched c s =>
      match p with
      | EmptyString => xorb negate matched && is_empty s
      | String a p1 =>
          if Ascii.eqb a "\" then
            match p1 with
            | String b p2 =>
                glob p2 (Class negate (matched || Ascii.eqb b c) c s)
            | EmptyString =>
                xorb negate (matched || Ascii.eqb a c) && is_empty s
            end
          else if Ascii.eqb a "]" then
            xorb negate matched && glob p1 (Plain s)
          else
            match p1 with
            | String d (String e p3) =>
                if Ascii.eqb d "-"
                then glob p3 (Class negate (matched || in_range a e c) c s)
                else glob p1 (Class negate (matched || Ascii.eqb a c) c s)
            | _ => glob p1 (Class negate (matched || Ascii.eqb a c) c s)
            end
      end
  end.

(** The pattern [*] alone matches every key; otherwise an empty key is
    matched by the empty pattern only. *)
Definition matches (pattern name : string) : bool :=
  String.eqb pattern "*" ||
  match name with
  | EmptyString => is_empty pattern
  | String _ _ => glob pattern (Plain name)
  end.

(** [KEYS pattern]: the keys that have not expired and match, in the
    order the server keeps them. *)
Definition keys (now : Z) (pattern : string) (s : server) :
  result (list string) * server :=
  command s
    (Return
       (List.map fst
          (List.filter (fun kv => live now (snd kv) && matches pattern (fst kv))
             (map_to_list (db s)))),
     s).

(** *** Pipelines

    A pipeline queues [SETEX] commands and sends them in one
    transaction.  Executing an empty pipeline sends nothing.  Otherwise
    the client first encodes every command, and refuses them all when
    one has [None] for an argument; the server then runs every command
    in order, and the client raises the first error among the answers,
    if any (the position of the command, which the client adds to the
    text of that error, is left out). *)
Definition queued : Type := string * option Z * string.

Definition unencodable (c : queued) : bool :=
  match c with
  | (_, None, _) => true
  | (_, Some _, _) => false
  end.

Fixpoint run (now : Z) (stack : list queued) (s : server) :
  list (result bool) * server :=
  match stack with
  | [] => ([], s)
  | (name, time, value) :: rest =>
      let '(r, s1) := setex now name time value s in
      let '(rs, s2) := run now rest s1 in
      (r :: rs, s2)
  end.

Fixpoint first_error (answers : list (result bool)) : option exn :=
  match answers with
  | [] => None
  | Raise e :: _ => Some e
  | Return _ :: rest => first_error rest
  end.

Definition execute (now : Z) (stack : list queued) (s : server) :
  result (list bool) * server :=
  match stack with
  | [] => (Return [], s)
  | _ :: _ =>
      command s
        (if existsb unencodable stack then
           (Raise (DataError
              "Invalid input of type: 'NoneType'. Convert to a bytes, string, int or float first."),
            s)
         else
           let '(answers, s') := run now stack s in
           match first_error answers with
           | Some e => (Raise e, s')
           | None => (Return (List.map (fun _ => true) answers), s')
           end)
  end.

End Redis.

(* ===================================================================== *)
(** ** [app/core/cache.py]: configuration and the connection pool *)
(* ===================================================================== *)

Module Cache.
Import Text.

(** The module-level configuration read from the environment. *)
Record settings : Type := {
  REDIS_HOST : option string;
  REDIS_PORT : option string;
  REDIS_PASSWORD : option string;
  REDIS_SSL : bool
}.

(** [os.getenv(name, None)] is the lookup in the environment. *)
Definition load_settings (environ : gmap string string) : settings :=
  {| REDIS_HOST := environ !! "REDIS_HOST";
     REDIS_PORT := environ !! "REDIS_PORT";
     REDIS_PASSWORD := environ !! "REDIS_PASSWORD";
     REDIS_SSL :=
       String.eqb (Py.lower (default "False" (environ !! "REDIS_SSL"))) "true" |}.

Record ConnectionPool : Type := {
  url : string;
  password : option string;
  ssl_cert_reqs : option string;
  encoding : string;
  decode_responses : bool;
  max_connections : Z
}.

(** The text after the last colon of [s], when [s] has a colon. *)
Fixpoint after_last_colon (s : string) : option string :=
  match s with
  | EmptyString => None
  | String c r =>
      match after_last_colon r with
      | Some p => Some p
      | None => if Ascii.eqb c ":" then Some r else None
      end
  end.

Fixpoint all_digits (s : string) : bool :=
  match s with
  | EmptyString => true
  | String c r => is_digit c && all_digits r
  end.

(** [ConnectionPool.from_url] of the [redis] client, on a URL of the
    shape [scheme://host:port] (no user info, path or query): the URL
    is parsed, a port that is not a decimal number up to 65535 is a
    [ValueError], and no connection is opened. *)
Definition from_url (url : string) (password ssl_cert_reqs : option string)
  (encoding : string) (decode_responses : bool) (max_connections : Z) :
  result ConnectionPool :=
  let pool := {| url := url; password := password;
                 ssl_cert_reqs := ssl_cert_reqs; encoding := encoding;
                 decode_responses := decode_responses;
                 max_connections := max_connections |} in
  match strip "redis://" url, strip "rediss://" url with
  | None, None =>
      Raise (ValueError
        "Redis URL must specify one of the following schemes (redis://, rediss://, unix://)")
  | Some netloc, _ | None, Some netloc =>
      match after_last_colon netloc with
      | None => Return pool
      | Some port =>
          if negb (all_digits port) then
            Raise (ValueError
              ("Port could not be cast to integer value as '" +:+ port +:+ "'"))
          else
            match Json.parse_nat port with
            | Some (n, _) =>
                if (n <=? 65535)%N then Return pool
                else Raise (ValueError "Port out of range 0-65535")
            | None => Return pool
            end
      end
  end.

(** The state of the service process: its configuration, the global
    [redis_pool], and the server the pool leads to. *)
Record process : Type := {
  config : settings;
  redis_pool : option ConnectionPool;
  backend : Redis.server
}.

(** Computations of the service: they may raise, and they update the
    process. *)
Definition M (A : Type) : Type := process -> result A * process.

Definition ret {A : Type} (a : A) : M A := fun p => (Return a, p).

Definition raise {A : Type} (e : exn) : M A := fun p => (Raise e, p).

Definition bind {A B : Type} (m : M A) (k : A -> M B) : M B :=
  fun p =>
    match m p with
    | (Return a, p') => k a p'
    | (Raise e, p') => (Raise e, p')
    end.

(** [try: m  except Exception as e: handler e]. *)
Definition try_except {A : Type} (m : M A) (handler : exn -> M A) : M A :=
  fun p =>
    match m p with
    | (Return a, p') => (Return a, p')
    | (Raise e, p') => handler e p'
    end.

(** [await redis_conn.command(...)]: a command sent to the server. *)
Definition await {A : Type}
  (cmd : Redis.server -> result A * Redis.server) : M A :=
  fun p =>
    let '(r, s) := cmd (backend p) in
    (r, {| config := config p; redis_pool := redis_pool p; backend := s |}).

Declare Scope py_scope.
Delimit Scope py_scope with py.
Notation "x <- m ;; k" := (bind m (fun x => k))
  (at level 100, m at next level, right associativity) : py_scope.
Local Open Scope py_scope.

(** A [Redis] client object is its connection pool. *)
Definition Redis := ConnectionPool.

Definition get_redis_connection : M Redis :=
  fun p =>
    match redis_pool p with
    | None =>
        let protocol := if REDIS_SSL (config p) then "rediss" else "redis" in
        let url := protocol +:+ "://" +:+ Py.str_opt (REDIS_HOST (config p))
                     +:+ ":" +:+ Py.str_opt (REDIS_PORT (config p)) in
        match from_url url (REDIS_PASSWORD (config p))
                (if REDIS_SSL (config p) then None else None)
                "utf-8" true 20 with
        | Return pool =>
            (Return pool,
             {| config := config p; redis_pool := Some pool;
                backend := backend p |})
        | Raise e => (Raise e, p)
        end
    | Some pool => (Return pool, p)
    end.

(** [lifespan] up to its [yield]: what runs when the service starts.
    A failure to obtain the connection is reported and raised again. *)
Definition lifespan_startup : M unit :=
  try_except
    (redis_conn <- get_redis_connection ;; ret tt)
    (fun e => raise e).

(** The process [p] once its pool is [pool]. *)
Definition with_pool (p : process) (pool : ConnectionPool) : process :=
  {| config := config p; redis_pool := Some pool; backend := backend p |}.

(** The URL [get_redis_connection] builds. *)
Definition connection_url (c : settings) : string :=
  (if REDIS_SSL c then "rediss" else "redis") +:+ "://" +:+
  Py.str_opt (REDIS_HOST c) +:+ ":" +:+ Py.str_opt (REDIS_PORT c).

End Cache.

(* ===================================================================== *)
(** ** [app/models/item.py] and [app/models/response.py] *)
(* ===================================================================== *)

Module Item.

Record CacheItem : Type := {
  key : string;
  data : list (string * json);
  ttl_seconds : option Z
}.

(** Validation of a request body against [CacheItem]: [key] is text,
    [data] a dictionary, and [ttl_seconds] an integer or [None], with
    default 3600 when the field is left out.  (Pydantic's coercion of
    other inputs to [int] is not modelled: they are rejected here.) *)
Definition validate (body : list (string * json)) : result CacheItem :=
  match Py.dict_get body "key", Py.dict_get body "data" with
  | Some (JStr key), Some (JDict data) =>
      match Py.dict_get body "ttl_seconds" with
      | None => Return {| key := key; data := data; ttl_seconds := Some 3600 |}
      | Some JNull => Return {| key := key; data := data; ttl_seconds := None |}
      | Some (JInt n) => Return {| key := key; data := data; ttl_seconds := Some n |}
      | Some _ => Raise (ValidationError "1 validation error for CacheItem")
      end
  | _, _ => Raise (ValidationError "1 validation error for CacheItem")
  end.

End Item.

Module Response.

Record CacheResponse : Type := {
  key : string;
  data : list (string * json);
  cached_at : string;
  ttl_remaining : option Z
}.

(** [CacheResponse(key=..., data=..., cached_at=..., ttl_remaining=...)]:
    [data] must be a dictionary and [cached_at] text. *)
Definition new (key : string) (data cached_at : json)
  (ttl_remaining : option Z) : result CacheResponse :=
  match data, cached_at with
  | JDict d, JStr t =>
      Return {| key := key; data := d; cached_at := t;
                ttl_remaining := ttl_remaining |}
  | _, _ => Raise (ValidationError "1 validation error for CacheResponse")
  end.

(** The response body the [response_model] serialises to. *)
Definition to_json (r : CacheResponse) : list (string * json) :=
  [("key", JStr (key r)); ("data", JDict (data r));
   ("cached_at", JStr (cached_at r));
   ("ttl_remaining",
    match ttl_remaining r with Some n => JInt n | None => JNull end)].

End Response.

(* ===================================================================== *)
(** ** [app/api/v1/endpoints.py] *)
(* ===================================================================== *)

Module Endpoints.
Import Text Cache.
Local Open Scope py_scope.

(** A Python value that raises or returns, inside a service computation. *)
Definition lift {A : Type} (r : result A) : M A := fun p => (r, p).

(** [json.loads] with its exception. *)
Definition json_loads (s : string) : result json :=
  match Json.loads s with
  | Some j => Return j
  | None => Raise (JSONDecodeError "Expecting value")
  end.

Definition opt_int (x : option Z) : json :=
  match x with Some n => JInt n | None => JNull end.

Definition store_in_cache (now : Py.instant) (item : Item.CacheItem) :
  M (list (string * json)) :=
  try_except
    (redis_conn <- get_redis_connection ;;
     let cached_at := JStr (Py.isoformat now) in
     let cache_entry :=
       JDict [("data", JDict (Item.data item));
              ("cached_at", cached_at);
              ("original_ttl", opt_int (Item.ttl_seconds item))] in
     let cache_value := Json.dumps cache_entry in
     _ <- await (Redis.setex now (Item.key item) (Item.ttl_seconds item)
                   cache_value) ;;
     ret [("success", JBool true);
          ("message", JStr ("Stored '" +:+ Item.key item +:+ "' in cache"));
          ("key", JStr (Item.key item));
          ("ttl_seconds", opt_int (Item.ttl_seconds item));
          ("cached_at", cached_at)])
    (fun e =>
       raise (HTTPException 500 ("Failed to store in cache: " +:+ Py.str e))).

Definition get_from_cache (now : Py.instant) (key : string) :
  M Response.CacheResponse :=
  try_except
    (redis_conn <- get_redis_connection ;;
     cached_value <- await (Redis.get now key) ;;
     match cached_value with
     | None => raise (HTTPException 404 ("Key '" +:+ key +:+ "' not found"))
     | Some cached_value =>
         cached_entry <- lift (json_loads cached_value) ;;
         ttl_remaining <- await (Redis.ttl now key) ;;
         let ttl_remaining :=
           if ttl_remaining =? -1 then None else Some ttl_remaining in
         data <- lift (Py.getitem cached_entry "data") ;;
         cached_at <- lift (Py.getitem cached_entry "cached_at") ;;
         lift (Response.new key data cached_at ttl_remaining)
     end)
    (fun e =>
       match e with
       | JSONDecodeError _ =>
           raise (HTTPException 500 "Invalid JSON data in cache")
       | _ =>
           if contains "not found" (Py.str e) then raise e
           else raise (HTTPException 500
                         ("Failed to retrieve from cache: " +:+ Py.str e))
       end).

Definition delete_from_cache (now : Py.instant) (key : string) :
  M (list (string * json)) :=
  try_except
    (redis_conn <- get_redis_connection ;;
     deleted_count <- await (Redis.delete now key) ;;
     if deleted_count =? 0
     then raise (HTTPException 404 ("Key '" +:+ key +:+ "' not found in cache"))
     else ret [("success", JBool true);
               ("message", JStr ("Deleted '" +:+ key +:+ "' from cache"))])
    (fun e =>
       if contains "not found" (Py.str e) then raise e
       else raise (HTTPException 500
                     ("Failed to delete from cache: " +:+ Py.str e))).

Definition check_key_exists (now : Py.instant) (key : string) :
  M (list (string * json)) :=
  try_except
    (redis_conn <- get_redis_connection ;;
     exists_ <- await (Redis.exists_ now key) ;;
     let result := [("key", JStr key); ("exists", JBool (negb (exists_ =? 0)))] in
     if negb (exists_ =? 0) then
       ttl <- await (Redis.ttl now key) ;;
       ret (result ++
            [("ttl_remaining", if negb (ttl =? -1) then JInt ttl else JNull)])%list
     else ret result)
    (fun e =>
       raise (HTTPException 500
                ("Failed to check key existence: " +:+ Py.str e))).

Definition health_check (now : Py.instant) : M (list (string * json)) :=
  try_except
    (redis_conn <- get_redis_connection ;;
     _ <- await Redis.ping ;;
     ret [("status", JStr "healthy");
          ("redis", JStr "connected");
          ("version", JStr "1.0.0");
          ("timestamp", JStr (Py.isoformat now))])
    (fun e =>
       ret [("status", JStr "unhealthy");
            ("redis", JStr "disconnected");
            ("error", JStr (Py.str e));
            ("version", JStr "1.0.0");
            ("timestamp", JStr (Py.isoformat now))]).

Definition list_cache_keys (now : Py.instant) (pattern : string) :
  M (list (string * json)) :=
  try_except
    (redis_conn <- get_redis_connection ;;
     keys <- await (Redis.keys now pattern) ;;
     ret [("pattern", JStr pattern);
          ("keys", JList (List.map JStr keys));
          ("count", JInt (Z.of_nat (length keys)))])
    (fun e =>
       raise (HTTPException 500 ("Failed to list keys: " +:+ Py.str e))).

(** The [for] loop of [store_bulk_in_cache] queues one [SETEX] for each
    item and collects the keys, in the order of the items. *)
Definition store_bulk_in_cache (now : Py.instant) (items : list Item.CacheItem) :
  M (list (string * json)) :=
  try_except
    (redis_conn <- get_redis_connection ;;
     let pipe :=
       List.map (fun item =>
                   (Item.key item, Item.ttl_seconds item,
                    Json.dumps
                      (JDict [("data", JDict (Item.data item));
                              ("cached_at", JStr (Py.isoformat now));
                              ("original_ttl", opt_int (Item.ttl_seconds item))])))
         items in
     let stored_keys := List.map Item.key items in
     _ <- await (Redis.execute now pipe) ;;
     ret [("success", JBool true);
          ("message",
           JStr ("Stored " +:+ str_Z (Z.of_nat (length items))
                   +:+ " items in cache"));
          ("keys", JList (List.map JStr stored_keys))])
    (fun e =>
       raise (HTTPException 500 ("Failed to store bulk items: " +:+ Py.str e))).

(** The handler of [/]. *)
Definition root (now : Py.instant) : list (string * json) :=
  [("service", JStr "Redis Cache API");
   ("version", JStr "1.0.0");
   ("status", JStr "running");
   ("available_versions", JList [JStr "v1"]);
   ("endpoints", JDict [("v1", JStr "/api/v1"); ("docs", JStr "/docs");
                        ("redoc", JStr "/redoc")]);
   ("timestamp", JStr (Py.isoformat now))].

(** The store can be used: the connection is obtained and the server
    answers commands. *)
Definition available (p : process) : bool :=
  match fst (get_redis_connection p), Redis.outage (backend p) with
  | Return _, None => true
  | _, _ => false
  end.

(** The document [store_in_cache] writes for [item] at [now], and the
    server after the write. *)
Definition envelope (now : Py.instant) (item : Item.CacheItem) : json :=
  JDict [("data", JDict (Item.data item));
         ("cached_at", JStr (Py.isoformat now));
         ("original_ttl", opt_int (Item.ttl_seconds item))].

Definition written (now : Py.instant) (item : Item.CacheItem) (ttl : Z)
  (s : Redis.server) : Redis.server :=
  {| Redis.db :=
       <[Item.key item :=
           {| Redis.value := Json.dumps (envelope now item);
              Redis.expire_at := Some (now + ttl) |}]> (Redis.db s);
     Redis.outage := Redis.outage s |}.

(** A decoded document has the field [k]. *)
Definition has_field (j : json) (k : string) : bool :=
  match j with
  | JDict d => Redis.is_Some_b (Py.dict_get d k)
  | _ => false
  end.

(** The server once the entry under [key] is removed. *)
Definition removed (key : string) (s : Redis.server) : Redis.server :=
  {| Redis.db := delete key (Redis.db s); Redis.outage := Redis.outage s |}.

(** The value [get_from_cache] passes as [ttl_remaining]. *)
Definition translate_ttl (ttl : Z) : option Z :=
  if ttl =? -1 then None else Some ttl.

(** *** The service boundary

    What the web framework answers for a handler's outcome: the
    returned value with status 200, an [HTTPException] with its own
    status code, any other exception with status 500. *)
Record http_response : Type := { status : Z; body : json }.

Definition respond {A : Type} (to_json : A -> json) (r : result A) :
  http_response :=
  match r with
  | Return a => {| status := 200; body := to_json a |}
  | Raise (HTTPException status_code detail) =>
      {| status := status_code; body := JDict [("detail", JStr detail)] |}
  | Raise _ => {| status := 500; body := JStr "Internal Server Error" |}
  end.

(** The routes of [v1_router], from a request to its response. *)
Definition serve {A : Type} (to_json : A -> json) (handler : M A) :
  process -> http_response * process :=
  fun p => let '(r, p') := handler p in (respond to_json r, p').

(** The request body is validated against [CacheItem] before the
    handler runs; a body that fails validation is answered with 422. *)
Definition POST_cache (now : Py.instant) (payload : list (string * json)) :
  process -> http_response * process :=
  match Item.validate payload with
  | Return item => serve JDict (store_in_cache now item)
  | Raise e =>
      fun p => ({| status := 422;
                   body := JDict [("detail", JStr (Py.str e))] |}, p)
  end.

Definition GET_cache_key (now : Py.instant) (key : string) :=
  serve (fun r => JDict (Response.to_json r)) (get_from_cache now key).

Definition DELETE_cache_key (now : Py.instant) (key : string) :=
  serve JDict (delete_from_cache now key).

Definition GET_cache_key_exists (now : Py.instant) (key : string) :=
  serve JDict (check_key_exists now key).

Definition GET_health (now : Py.instant) :=
  serve JDict (health_check now).

(** [pattern] is a query parameter with default [*]. *)
Definition GET_cache (now : Py.instant) (pattern : option string) :=
  serve JDict (list_cache_keys now (default "*" pattern)).

(** The body is a list of items, each validated against [CacheItem]. *)
Fixpoint validate_all (payload : list (list (string * json))) :
  result (list Item.CacheItem) :=
  match payload with
  | [] => Return []
  | body :: rest =>
      match Item.validate body with
      | Return item =>
          match validate_all rest with
          | Return items => Return (item :: items)
          | Raise e => Raise e
          end
      | Raise e => Raise e
      end
  end.

Definition POST_cache_bulk (now : Py.instant)
  (payload : list (list (string * json))) :
  process -> http_response * process :=
  match validate_all payload with
  | Return items => serve JDict (store_bulk_in_cache now items)
  | Raise e =>
      fun p => ({| status := 422;
                   body := JDict [("detail", JStr (Py.str e))] |}, p)
  end.

End Endpoints.

(* ===================================================================== *)
(** ** [client/client.py] and [scripts/workflow.py] *)
(* ===================================================================== *)

(** The requests the cache client sends to the service. *)
Inductive request : Type :=
| POST_cache_request (payload : list (string * json))
| GET_cache_request (key : string)
| DELETE_cache_request (key : string)
| GET_exists_request (key : string)
| GET_health_request.

(** An answer of the workflow service: status 200 with a JSON object, or
    another status with its text. *)
Inductive reply : Type :=
| Ok200 (body : list (string * json))
| Failed (status : Z) (error_text : string).

(** The workflow service as the manager meets it: its answer to the start
    request, its answer to the [n]-th status request, and the seconds the
    [n]-th status request takes. *)
Record remote : Type := {
  start_reply : reply;
  status_reply : nat -> reply;
  request_time : nat -> N
}.

(** The world of the coordinator script: the cache service it talks to,
    the clock, the requests sent to the cache service so far (latest
    first), and the number of status requests made so far. *)
Record world : Type := {
  service : Cache.process;
  clock : Z;
  sent : list request;
  polls : nat
}.

(** Computations of the script.  [None] stands for a run that has not
    ended within the iterations it was given. *)
Module Script.

Definition W (A : Type) : Type := world -> option (result A * world).

Definition ret {A : Type} (a : A) : W A := fun w => Some (Return a, w).

Definition raise {A : Type} (e : exn) : W A := fun w => Some (Raise e, w).

Definition bind {A B : Type} (m : W A) (k : A -> W B) : W B :=
  fun w =>
    match m w with
    | Some (Return a, w') => k a w'
    | Some (Raise e, w') => Some (Raise e, w')
    | None => None
    end.

Definition try_except {A : Type} (m : W A) (handler : exn -> W A) : W A :=
  fun w =>
    match m w with
    | Some (Return a, w') => Some (Return a, w')
    | Some (Raise e, w') => handler e w'
    | None => None
    end.

Definition lift {A : Type} (r : result A) : W A := fun w => Some (r, w).

Declare Scope script_scope.
Delimit Scope script_scope with script.
Notation "x <- m ;; k" := (bind m (fun x => k))
  (at level 100, m at next level, right associativity) : script_scope.

(** [time.time()]. *)
Definition time : W Z := fun w => Some (Return (clock w), w).

(** [await asyncio.sleep(delay)]. *)
Definition sleep (delay : Z) : W unit :=
  fun w => Some (Return tt,
                 {| service := service w; clock := clock w + Z.max 0 delay;
                    sent := sent w; polls := polls w |}).

(** One request of the cache client: it is recorded, the service
    handles it at the present time, and its response comes back. *)
Definition http (req : request)
  (route : Py.instant -> Cache.process ->
           Endpoints.http_response * Cache.process) :
  W Endpoints.http_response :=
  fun w =>
    let '(resp, p) := route (clock w) (service w) in
    Some (Return resp,
          {| service := p; clock := clock w; sent := req :: sent w;
             polls := polls w |}).

End Script.

Module Client.
Import Script.
Local Open Scope script_scope.

(** [await response.json()]: the routes answer with a JSON object,
    except for the plain-text body of an unhandled server error. *)
Definition response_json (resp : Endpoints.http_response) :
  W (list (string * json)) :=
  match Endpoints.body resp with
  | JDict d => ret d
  | _ => raise (Exception "Attempt to decode JSON with unexpected mimetype")
  end.

Definition store (key : string) (data : list (string * json))
  (ttl_seconds : Z) : W (list (string * json)) :=
  let payload := [("key", JStr key); ("data", JDict data);
                  ("ttl_seconds", JInt ttl_seconds)] in
  response <- http (POST_cache_request payload)
                (fun now => Endpoints.POST_cache now payload) ;;
  response_json response.

Definition get (key : string) : W (option json) :=
  response <- http (GET_cache_request key)
                (fun now => Endpoints.GET_cache_key now key) ;;
  if Endpoints.status response =? 200 then
    result <- response_json response ;;
    data <- lift (Py.getitem (JDict result) "data") ;;
    ret (Some data)
  else ret None.

Definition delete (key : string) : W (list (string * json)) :=
  response <- http (DELETE_cache_request key)
                (fun now => Endpoints.DELETE_cache_key now key) ;;
  response_json response.

Definition health_check : W (list (string * json)) :=
  response <- http GET_health_request Endpoints.GET_health ;;
  response_json response.

Definition key_exists (key : string) : W (list (string * json)) :=
  response <- http (GET_exists_request key)
                (fun now => Endpoints.GET_cache_key_exists now key) ;;
  response_json response.

End Client.

Module Workflow.
Import Text Script.
Local Open Scope script_scope.

(** [not x] for the value of [result.get(k)]. *)
Definition falsy (x : option json) : bool :=
  match x with
  | None | Some JNull | Some (JBool false) | Some (JInt 0)
  | Some (JStr EmptyString) | Some (JList []) | Some (JDict []) => true
  | Some _ => false
  end.

Definition trigger_workflow (manager : remote) : W json :=
  match start_reply manager with
  | Ok200 result =>
      let run_id := Py.dict_get result "id" in
      if falsy run_id
      then raise (Exception "No run_id returned from workflow trigger")
      else ret (default JNull run_id)
  | Failed status error_text =>
      raise (Exception ("Failed to trigger workflows: " +:+ str_Z status
                          +:+ " - " +:+ error_text))
  end.

(** The next status request: it takes its time, and is answered. *)
Definition get_workflow_status (manager : remote) :
  W (list (string * json)) :=
  fun w =>
    let n := S (polls w) in
    let w' := {| service := service w;
                 clock := clock w + Z.of_N (request_time manager n);
                 sent := sent w; polls := n |} in
    match status_reply manager n with
    | Ok200 body => Some (Return body, w')
    | Failed status error_text =>
        Some (Raise (Exception ("Failed to get workflow status: "
                                  +:+ str_Z status +:+ " - " +:+ error_text)),
              w')
    end.

(** The [while] loop of [poll_until_complete]; [fuel] bounds the number
    of iterations. *)
Fixpoint poll_loop (fuel : nat) (manager : remote)
  (poll_interval max_wait_time start_time : Z) (poll_count : nat) :
  W (list (string * json)) :=
  match fuel with
  | O => fun _ => None
  | S fuel' =>
      now <- time ;;
      if now - start_time <? max_wait_time then
        let poll_count := S poll_count in
        try_except
          (status_data <- get_workflow_status manager ;;
           let status :=
             default (JStr "UNKNOWN") (Py.dict_get status_data "status") in
           if Py.eq_str status "COMPLETED" then ret status_data
           else if Py.eq_str status "FAILED" || Py.eq_str status "ERROR" then
             let error_msg := Py.dict_get status_data "error" in
             raise (Exception ("Workflow failed: " +:+ Py.format error_msg))
           else
             _ <- sleep poll_interval ;;
             poll_loop fuel' manager poll_interval max_wait_time start_time
               poll_count)
          (fun e => raise e)
      else
        raise (TimeoutError
                 ("Workflow did not complete within "
                    +:+ str_Z max_wait_time +:+ " secs"))
  end.

Definition poll_until_complete (fuel : nat) (manager : remote)
  (poll_interval max_wait_time : Z) : W (list (string * json)) :=
  start_time <- time ;;
  poll_loop fuel manager poll_interval max_wait_time start_time 0.

(** [inputs[k]] on the dictionary of workflow inputs. *)
Definition inputs_get (inputs : gmap string string) (k : string) : W string :=
  match inputs !! k with
  | Some v => ret v
  | None => raise (KeyError k)
  end.

Definition empty_data : list (string * json) :=
  [("demographics", JDict []); ("remits", JDict []);
   ("transactions", JDict []); ("claims", JDict []);
   ("notes", JDict []); ("action", JDict [])].

(** [workflow_payload["inputs"]] is given by [inputs]. *)
Definition run_workflow_with_cache (fuel : nat) (manager : remote)
  (inputs : gmap string string) : W (list (string * json)) :=
  run_id <- trigger_workflow manager ;;
  accountnumber <- inputs_get inputs "accountnumber" ;;
  clientid <- inputs_get inputs "clientid" ;;
  let key := accountnumber +:+ "-" +:+ clientid in
  health_check <- Client.health_check ;;
  _ <- (if Py.opt_eq_str (Py.dict_get health_check "redis_connected") "connected"
           && Py.opt_eq_str (Py.dict_get health_check "status") "healthy"
        then (_ <- Client.store key empty_data 3600 ;; ret tt)
        else ret tt) ;;
  final_status <- poll_until_complete fuel manager 5 3600 ;;
  _ <- (if Py.truthy final_status
        then (_ <- Client.delete key ;; ret tt)
        else ret tt) ;;
  ret final_status.

(** *** Vocabulary for the outcomes of the polling loop *)

(** The status text of a status answer, [UNKNOWN] when it has none. *)
Definition status_of (body : list (string * json)) : json :=
  default (JStr "UNKNOWN") (Py.dict_get body "status").

Definition completed (body : list (string * json)) : bool :=
  Py.eq_str (status_of body) "COMPLETED".

Definition failed (body : list (string * json)) : bool :=
  Py.eq_str (status_of body) "FAILED" || Py.eq_str (status_of body) "ERROR".

(** An answer after which the loop goes on: a status that is neither
    [COMPLETED] nor [FAILED] nor [ERROR]. *)
Definition continues (r : reply) : bool :=
  match r with
  | Ok200 body => negb (completed body) && negb (failed body)
  | Failed _ _ => false
  end.

(** The world once status request [S (polls w)] has been answered, and
    once the loop has slept after it. *)
Definition asked (manager : remote) (w : world) : world :=
  {| service := service w;
     clock := clock w + Z.of_N (request_time manager (S (polls w)));
     sent := sent w; polls := S (polls w) |}.

Definition slept (poll_interval : Z) (w : world) : world :=
  {| service := service w; clock := clock w + Z.max 0 poll_interval;
     sent := sent w; polls := polls w |}.

Definition timeout (max_wait_time : Z) : exn :=
  TimeoutError ("Workflow did not complete within "
                  +:+ str_Z max_wait_time +:+ " secs").

Definition workflow_failed (body : list (string * json)) : exn :=
  Exception ("Workflow failed: " +:+ Py.format (Py.dict_get body "error")).

Definition status_unavailable (status : Z) (error_text : string) : exn :=
  Exception ("Failed to get workflow status: " +:+ str_Z status
               +:+ " - " +:+ error_text).

(** What a run of the polling loop that started in [w] has done when it
    ends in [w'] with result [r]: it has left the cache service alone,
    every status answer before the last one let the loop go on, and the
    result is decided by the last answer, or by the budget. *)
Definition decided (manager : remote) (max_wait_time start_time : Z)
  (w : world) (r : result (list (string * json))) (w' : world) : Prop :=
  service w' = service w /\ sent w' = sent w /\
  (polls w <= polls w')%nat /\ clock w <= clock w' /\
  (forall k, (polls w < k < polls w')%nat ->
             continues (status_reply manager k) = true) /\
  match r with
  | Return payload =>
      (polls w < polls w')%nat /\
      status_reply manager (polls w') = Ok200 payload /\
      completed payload = true
  | Raise e =>
      (e = timeout max_wait_time /\
       max_wait_time <= clock w' - start_time /\
       (polls w < polls w' ->
        continues (status_reply manager (polls w')) = true)%nat) \/
      ((polls w < polls w')%nat /\
       match status_reply manager (polls w') with
       | Ok200 body =>
           completed body = false /\ failed body = true /\
           e = workflow_failed body
       | Failed status error_text => e = status_unavailable status error_text
       end)
  end.

(** The number of store requests among the requests sent. *)
Definition is_store (r : request) : bool :=
  match r with POST_cache_request _ => true | _ => false end.

Definition is_delete (r : request) : bool :=
  match r with DELETE_cache_request _ => true | _ => false end.

Definition stores (l : list request) : nat := length (List.filter is_store l).

Definition deletes (l : list request) : nat := length (List.filter is_delete l).

End Workflow.

(* ===================================================================== *)
(** ** Vocabulary of the further properties *)
(* ===================================================================== *)

Module Listing.

(** The keys [KEYS pattern] answers at [now]. *)
Definition listed (now : Z) (pattern : string) (s : Redis.server) : list string :=
  List.map fst
    (List.filter (fun kv => Redis.live now (snd kv) && Redis.matches pattern (fst kv))
       (map_to_list (Redis.db s))).

(** A pattern without [*], [?], [[] or a backslash. *)
Fixpoint literal (p : string) : bool :=
  match p with
  | EmptyString => true
  | String a p' =>
      negb (Ascii.eqb a "*") && negb (Ascii.eqb a "?") &&
      negb (Ascii.eqb a "[") && negb (Ascii.eqb a "\") && literal p'
  end.

End Listing.

Module Bulk.
Import Text Cache Endpoints.

(** An item the server accepts: its TTL is a positive number. *)
Definition accepted (item : Item.CacheItem) : bool :=
  match Item.ttl_seconds item with
  | Some t => 0 <? t
  | None => false
  end.

(** The last accepted item of a batch that has the key [key]. *)
Fixpoint last_accepted (key : string) (items : list Item.CacheItem) :
  option Item.CacheItem :=
  match items with
  | [] => None
  | item :: rest =>
      match last_accepted key rest with
      | Some later => Some later
      | None =>
          if accepted item && String.eqb (Item.key item) key
          then Some item else None
      end
  end.

(** The commands [store_bulk_in_cache] queues for a batch. *)
Definition pipe (now : Py.instant) (items : list Item.CacheItem) :
  list Redis.queued :=
  List.map (fun item =>
              (Item.key item, Item.ttl_seconds item,
               Json.dumps (envelope now item))) items.

(** The entry an accepted item is written as. *)
Definition entry_of (now : Py.instant) (item : Item.CacheItem) : Redis.entry :=
  {| Redis.value := Json.dumps (envelope now item);
     Redis.expire_at := Some (now + default 0 (Item.ttl_seconds item)) |}.

Definition has_ttl (item : Item.CacheItem) : bool :=
  Redis.is_Some_b (Item.ttl_seconds item).

Definition bulk_success (items : list Item.CacheItem) : list (string * json) :=
  [("success", JBool true);
   ("message",
    JStr ("Stored " +:+ str_Z (Z.of_nat (length items)) +:+ " items in cache"));
   ("keys", JList (List.map JStr (List.map Item.key items)))].

End Bulk.

Module Exchange.
Import Cache.

(** The world after the cache client has sent [req] and the service has
    moved to [p]. *)
Definition after (req : request) (p : process) (w : world) : world :=
  {| service := p; clock := clock w; sent := req :: sent w; polls := polls w |}.

End Exchange.

Module Pool.
Import Cache.

(** A computation that keeps the pool [pool] once the process has it. *)
Definition stable {A : Type} (pool : ConnectionPool) (m : M A) : Prop :=
  forall p, redis_pool p = Some pool -> redis_pool (snd (m p)) = Some pool.

End Pool.

(* ===================================================================== *)
(** ** Sample states *)
(* ===================================================================== *)

Module Sample.
Import Cache.

Definition environ : gmap string string :=
  <["REDIS_HOST" := "localhost"]> (<["REDIS_PORT" := "6379"]> ∅).

(** A freshly started service in front of an empty, reachable server. *)
Definition fresh : process :=
  {| config := load_settings environ; redis_pool := None;
     backend := {| Redis.db := ∅; Redis.outage := None |} |}.

(** The same service when the server cannot be reached. *)
Definition down : process :=
  {| config := load_settings environ; redis_pool := None;
     backend := {| Redis.db := ∅;
                   Redis.outage := Some "Error connecting to localhost:6379" |} |}.

(** A server holding one entry under [k], with or without expiry. *)
Definition holding (k v : string) (expire_at : option Z) : process :=
  {| config := load_settings environ; redis_pool := None;
     backend := {| Redis.db := {[ k := {| Redis.value := v;
                                          Redis.expire_at := expire_at |} ]};
                   Redis.outage := None |} |}.

(** A workflow run that reports [RUNNING] twice and then [COMPLETED];
    every status request takes a second. *)
Definition completed_payload : list (string * json) :=
  [("status", JStr "COMPLETED"); ("id", JStr "run-1")].

Definition job : remote :=
  {| start_reply := Ok200 [("id", JStr "run-1")];
     status_reply := fun n =>
       match n with
       | 1%nat | 2%nat => Ok200 [("status", JStr "RUNNING")]
       | _ => Ok200 completed_payload
       end;
     request_time := fun _ => 1%N |}.

Definition inputs : gmap string string :=
  <["accountnumber" := "20000000"]> (<["clientid" := "12345678"]> ∅).

(** The coordinator's world when it starts, in front of [fresh]. *)
Definition start : world :=
  {| service := fresh; clock := 1000; sent := []; polls := 0 |}.

(** A workflow run that reports [FAILED] at the first status request. *)
Definition failed_payload : list (string * json) :=
  [("status", JStr "FAILED"); ("error", JStr "out of memory")].

Definition failing_job : remote :=
  {| start_reply := Ok200 [("id", JStr "run-2")];
     status_reply := fun _ => Ok200 failed_payload;
     request_time := fun _ => 1%N |}.

(** A workflow service that refuses the start request. *)
Definition refusing : remote :=
  {| start_reply := Failed 500 "Internal Server Error";
     status_reply := fun _ => Failed 500 "Internal Server Error";
     request_time := fun _ => 1%N |}.

End Sample.

(* ===================================================================== *)
(** * Properties *)
(* ===================================================================== *)

Module TextFacts.
Import Text.

Lemma app_cons c s t : String c s +:+ t = String c (s +:+ t).
Proof. reflexivity. Qed.

Lemma app_nil_l t : EmptyString +:+ t = t.
Proof. reflexivity. Qed.

Lemma app_nil_r s : s +:+ EmptyString = s.
Proof. induction s as [|c s IH]; [reflexivity|]. rewrite app_cons, IH. reflexivity. Qed.

Lemma app_assoc s t u : (s +:+ t) +:+ u = s +:+ (t +:+ u).
Proof.
  induction s as [|c s IH]; [reflexivity|].
  rewrite !app_cons, IH. reflexivity.
Qed.

Lemma length_app s t :
  String.length (s +:+ t) = (String.length s + String.length t)%nat.
Proof.
  induction s as [|c s IH]; [reflexivity|].
  rewrite app_cons. simpl. rewrite IH. reflexivity.
Qed.

Lemma strip_app p s : strip p (p +:+ s) = Some s.
Proof.
  induction p as [|c p IH]; [reflexivity|].
  rewrite app_cons. simpl. rewrite Ascii.eqb_refl. exact IH.
Qed.

Lemma contains_app sub pre post : contains sub (pre +:+ sub +:+ post) = true.
Proof.
  induction pre as [|c pre IH].
  - rewrite app_nil_l. destruct (sub +:+ post) eqn:E; simpl;
      unfold starts_with; rewrite <- E, strip_app; reflexivity.
  - rewrite app_cons. simpl. rewrite IH. apply orb_true_r.
Qed.

Lemma read_digits_stop s : no_digit_head s = true -> read_digits s = (Nil, s).
Proof.
  destruct s as [|c r]; [reflexivity|].
  destruct c as [[] [] [] [] [] [] [] []]; simpl; intros H;
    try discriminate H; reflexivity.
Qed.

Lemma read_digits_digits d rest :
  no_digit_head rest = true -> read_digits (digits d +:+ rest) = (d, rest).
Proof.
  intros H. induction d as [|d IH|d IH|d IH|d IH|d IH|d IH|d IH|d IH|d IH|d IH];
    [ apply read_digits_stop; exact H
    | simpl digits; rewrite app_cons; simpl; rewrite IH; reflexivity .. ].
Qed.

End TextFacts.

Module NumFacts.
Import Text TextFacts.

Lemma canonical_unorm d : canonical (unorm d).
Proof.
  induction d; try exact I.
  rewrite DecimalFacts.unorm_D0. exact IHd.
Qed.

Lemma canonical_to_uint n : canonical (N.to_uint n).
Proof.
  rewrite <- (DecimalN.Unsigned.of_to n) at 1.
  rewrite DecimalN.Unsigned.to_of. apply canonical_unorm.
Qed.

Lemma parse_nat_str_N n rest :
  no_digit_head rest = true ->
  Json.parse_nat (str_N n +:+ rest) = Some (n, rest).
Proof.
  intros H. unfold Json.parse_nat, str_N.
  rewrite (read_digits_digits _ _ H).
  pose proof (canonical_to_uint n) as C.
  pose proof (DecimalN.Unsigned.of_to n) as E.
  destruct (N.to_uint n) as [|d|d|d|d|d|d|d|d|d|d]; try (rewrite E; reflexivity).
  - destruct C.
  - destruct d; try destruct C. simpl in E. subst n. reflexivity.
Qed.

(** The first character of a rendered natural number is a digit. *)
Lemma str_N_head n : exists c s, str_N n = String c s /\ is_digit c = true.
Proof.
  unfold str_N. pose proof (canonical_to_uint n) as C.
  destruct (N.to_uint n); try destruct C; simpl; eauto.
Qed.

Lemma parse_int_str_Z n rest :
  no_digit_head rest = true ->
  Json.parse_int (str_Z n +:+ rest) = Some (n, rest).
Proof.
  intros H. unfold str_Z. destruct (Z.ltb_spec n 0) as [Hn|Hn].
  - rewrite app_cons. simpl. rewrite (parse_nat_str_N _ _ H).
    f_equal. f_equal. rewrite N2Z.inj_abs_N. lia.
  - destruct (str_N_head (Z.abs_N n)) as (c & s & E & D).
    pose proof (parse_nat_str_N (Z.abs_N n) rest H) as P.
    rewrite E in *. rewrite app_cons in *. unfold Json.parse_int.
    replace (Ascii.eqb c "-") with false.
    + rewrite P. f_equal. f_equal. rewrite N2Z.inj_abs_N. lia.
    + destruct c as [[] [] [] [] [] [] [] []]; try discriminate D; reflexivity.
Qed.

End NumFacts.

Module JsonFacts.
Import Text TextFacts NumFacts Json.

Lemma parse_chars_escape_char c t :
  parse_chars (escape_char c +:+ t) = push c (parse_chars t).
Proof. destruct c as [[] [] [] [] [] [] [] []]; reflexivity. Qed.

Lemma parse_chars_escape s rest :
  parse_chars (escape s +:+ String dquote rest) = Some (s, rest).
Proof.
  induction s as [|c s IH]; [reflexivity|].
  simpl escape. rewrite app_assoc, parse_chars_escape_char, IH. reflexivity.
Qed.

Lemma parse_chars_quote_tail s rest :
  parse_chars ((escape s +:+ chr dquote) +:+ rest) = Some (s, rest).
Proof. rewrite app_assoc. apply parse_chars_escape. Qed.

Lemma json_ind (P : json -> Prop) :
  P JNull -> (forall b, P (JBool b)) -> (forall n, P (JInt n)) ->
  (forall s, P (JStr s)) ->
  (forall l, Forall P l -> P (JList l)) ->
  (forall m, Forall (fun kv => P (snd kv)) m -> P (JDict m)) ->
  forall j, P j.
Proof.
  intros Hnull Hbool Hint Hstr Hlist Hdict.
  fix IH 1. intros [ | b | n | s | l | m ].
  - exact Hnull.
  - apply Hbool.
  - apply Hint.
  - apply Hstr.
  - apply Hlist.
    revert l. fix IHl 1. intros [|x l]; constructor; [apply IH | apply IHl].
  - apply Hdict.
    revert m. fix IHm 1. intros [|[k x] m]; constructor; [apply IH | apply IHm].
Qed.

Lemma dumps_list_cons x l :
  dumps (JList (x :: l)) = String "[" (dumps x +:+ dumps_tail l).
Proof. reflexivity. Qed.

Lemma dumps_dict_cons k x m :
  dumps (JDict ((k, x) :: m)) =
  String "{" (quote k +:+ ": " +:+ dumps x +:+ dumps_mtail m).
Proof. reflexivity. Qed.

Lemma size_list l : size (JList l) = S (size_elems l).
Proof. reflexivity. Qed.

Lemma size_dict m : size (JDict m) = S (size_members m).
Proof. reflexivity. Qed.

Lemma digit_not_closer c :
  (Ascii.eqb c "-" || is_digit c) = true -> closer c = false.
Proof.
  destruct c as [[] [] [] [] [] [] [] []]; simpl; intros H;
    try discriminate H; reflexivity.
Qed.

Lemma closer_false c :
  closer c = false ->
  is_ws c = false /\ Ascii.eqb c "]" = false /\ Ascii.eqb c "}" = false.
Proof.
  unfold closer. intros H.
  apply orb_false_iff in H as [H H3]. apply orb_false_iff in H as [H1 H2].
  auto.
Qed.

Lemma str_Z_head n :
  exists c s, str_Z n = String c s /\ (Ascii.eqb c "-" || is_digit c) = true.
Proof.
  unfold str_Z. destruct (n <? 0).
  - eauto.
  - destruct (str_N_head (Z.abs_N n)) as (c & s & E & D).
    exists c, s. rewrite D, orb_true_r. auto.
Qed.

(** An encoded value starts with a character that is not white space. *)
Lemma dumps_head j : exists c s, dumps j = String c s /\ closer c = false.
Proof.
  destruct j as [ | [] | n | s | l | m ]; simpl; eauto.
  destruct (str_Z_head n) as (c & s & E & D).
  exists c, s. split; [exact E | apply digit_not_closer, D].
Qed.

Lemma skip_ws_dumps j r : skip_ws (dumps j +:+ r) = dumps j +:+ r.
Proof.
  destruct (dumps_head j) as (c & s & E & W). rewrite E, app_cons.
  apply closer_false in W as (W & _). simpl. rewrite W. reflexivity.
Qed.

Lemma skip_ws_space s : skip_ws (String " " s) = skip_ws s.
Proof. reflexivity. Qed.

Lemma parse_value_number f c r :
  (Ascii.eqb c "-" || is_digit c) = true ->
  parse_value (S f) (String c r) =
  match parse_int (String c r) with
  | Some (n, r') => Some (JInt n, r')
  | None => None
  end.
Proof.
  destruct c as [[] [] [] [] [] [] [] []]; simpl; intros H;
    try discriminate H; reflexivity.
Qed.

Lemma parse_elems_S f s :
  parse_elems (S f) s =
  match parse_value f s with
  | Some (v, r) =>
      match skip_ws r with
      | String c r' =>
          if Ascii.eqb c "]" then Some ([v], r')
          else if Ascii.eqb c "," then
            match parse_elems f (skip_ws r') with
            | Some (l, r'') => Some (v :: l, r'')
            | None => None
            end
          else None
      | EmptyString => None
      end
  | None => None
  end.
Proof. reflexivity. Qed.

Lemma no_digit_head_tail l rest : no_digit_head (dumps_tail l +:+ rest) = true.
Proof. destruct l; reflexivity. Qed.

Lemma no_digit_head_mtail m rest : no_digit_head (dumps_mtail m +:+ rest) = true.
Proof. destruct m as [|[k x] m]; reflexivity. Qed.

Lemma parse_elems_dumps l :
  Forall decodes l ->
  forall x fuel rest,
    decodes x -> (size_elems (x :: l) <= fuel)%nat ->
    parse_elems fuel (dumps x +:+ dumps_tail l +:+ rest) = Some (x :: l, rest).
Proof.
  induction 1 as [|y l Hy Hl IH]; intros x fuel rest Hx Hf;
    (destruct fuel as [|f]; [simpl in Hf; lia|]);
    rewrite parse_elems_S;
    (rewrite Hx; [| simpl in Hf; lia | apply no_digit_head_tail]).
  - reflexivity.
  - simpl dumps_tail. rewrite !app_assoc, !app_cons, app_nil_l.
    simpl skip_ws. cbv beta iota.
    change (Ascii.eqb "," "]") with false. change (Ascii.eqb "," ",") with true.
    cbv iota. rewrite skip_ws_space, skip_ws_dumps.
    rewrite IH; [reflexivity | exact Hy |].
    simpl in Hf |- *. lia.
Qed.

Lemma parse_members_S f r :
  parse_members (S f) (String dquote r) =
  match parse_chars r with
  | Some (k, r1) =>
      match skip_ws r1 with
      | String c r2 =>
          if Ascii.eqb c ":" then
            match parse_value f (skip_ws r2) with
            | Some (v, r3) =>
                match skip_ws r3 with
                | String c' r4 =>
                    if Ascii.eqb c' "}" then Some ([(k, v)], r4)
                    else if Ascii.eqb c' "," then
                      match parse_members f (skip_ws r4) with
                      | Some (m, r5) => Some ((k, v) :: m, r5)
                      | None => None
                      end
                    else None
                | EmptyString => None
                end
            | None => None
            end
          else None
      | EmptyString => None
      end
  | None => None
  end.
Proof. reflexivity. Qed.

Lemma quote_app k t :
  quote k +:+ t = String dquote ((escape k +:+ chr dquote) +:+ t).
Proof. reflexivity. Qed.

Lemma parse_members_dumps m :
  Forall (fun kv => decodes (snd kv)) m ->
  forall k x fuel rest,
    decodes x -> (size_members ((k, x) :: m) <= fuel)%nat ->
    parse_members fuel
      (quote k +:+ ": " +:+ dumps x +:+ dumps_mtail m +:+ rest) =
    Some ((k, x) :: m, rest).
Proof.
  induction 1 as [|[k' y] m Hy Hm IH]; intros k x fuel rest Hx Hf;
    (destruct fuel as [|f]; [simpl in Hf; lia|]);
    rewrite quote_app, parse_members_S, parse_chars_quote_tail;
    rewrite !app_cons, app_nil_l; simpl skip_ws; cbv beta iota;
    change (Ascii.eqb ":" ":") with true; cbv iota;
    rewrite skip_ws_space, skip_ws_dumps;
    (rewrite Hx; [| simpl in Hf; lia | first [apply no_digit_head_mtail | reflexivity]]).
  - reflexivity.
  - simpl dumps_mtail. simpl snd in Hy.
    rewrite !app_assoc, !app_cons, app_nil_l.
    simpl skip_ws. cbv beta iota.
    change (Ascii.eqb "," "}") with false. change (Ascii.eqb "," ",") with true.
    cbv iota. rewrite skip_ws_space.
    match goal with
    | |- context [parse_members f ?a] =>
        replace a
          with (quote k' +:+ ": " +:+ dumps y +:+ dumps_mtail m +:+ rest)
          by reflexivity
    end.
    rewrite IH; [reflexivity | exact Hy |].
    simpl in Hf |- *. lia.
Qed.

Lemma decodes_all j : decodes j.
Proof.
  induction j as [ | b | n | s | l Hl | m Hm ] using json_ind;
    intros fuel rest Hf Hr; (destruct fuel as [|f]; [simpl in Hf; lia|]).
  - reflexivity.
  - destruct b; reflexivity.
  - destruct (str_Z_head n) as (c & s & E & D).
    pose proof (parse_int_str_Z n rest Hr) as P.
    simpl dumps. rewrite E, app_cons in *.
    rewrite (parse_value_number _ _ _ D), P. reflexivity.
  - simpl dumps. rewrite quote_app.
    change (parse_value (S f) (String dquote ((escape s +:+ chr dquote) +:+ rest)))
      with (match parse_chars ((escape s +:+ chr dquote) +:+ rest) with
            | Some (t, r') => Some (JStr t, r')
            | None => None
            end).
    rewrite parse_chars_quote_tail. reflexivity.
  - destruct Hl as [|x l Hx Hl]; [reflexivity|].
    rewrite dumps_list_cons, app_cons, app_assoc.
    rewrite size_list in Hf.
    pose proof (parse_elems_dumps l Hl x f rest Hx ltac:(lia)) as P.
    destruct (dumps_head x) as (c & s & E & W).
    rewrite E, app_cons in *.
    change (parse_value (S f) (String "[" (String c (s +:+ dumps_tail l +:+ rest))))
      with (match skip_ws (String c (s +:+ dumps_tail l +:+ rest)) with
            | String c' r' =>
                if Ascii.eqb c' "]" then Some (JList [], r')
                else
                  match parse_elems f (String c' r') with
                  | Some (l, r'') => Some (JList l, r'')
                  | None => None
                  end
            | EmptyString => None
            end).
    apply closer_false in W as (W & W1 & W2).
    simpl skip_ws. rewrite W. cbv iota. rewrite W1, P. reflexivity.
  - destruct Hm as [|[k x] m Hx Hm]; [reflexivity|].
    rewrite dumps_dict_cons, app_cons, !app_assoc.
    rewrite size_dict in Hf.
    pose proof (parse_members_dumps m Hm k x f rest Hx ltac:(lia)) as P.
    rewrite quote_app in *.
    change (parse_value (S f) (String "{" ?r))
      with (match skip_ws r with
            | String c' r' =>
                if Ascii.eqb c' "}" then Some (JDict [], r')
                else
                  match parse_members f (String c' r') with
                  | Some (m, r'') => Some (JDict m, r'')
                  | None => None
                  end
            | EmptyString => None
            end).
    simpl skip_ws. cbv iota.
    change (Ascii.eqb dquote "}") with false. cbv iota.
    rewrite P. reflexivity.
Qed.

Lemma size_le_length j : (size j <= String.length (dumps j))%nat.
Proof.
  induction j as [ | b | n | s | l Hl | m Hm ] using json_ind.
  - simpl. lia.
  - destruct b; simpl; lia.
  - destruct (str_Z_head n) as (c & s & E & _). simpl. rewrite E. simpl. lia.
  - simpl. lia.
  - destruct Hl as [|x l Hx Hl]; [simpl; lia|].
    rewrite dumps_list_cons, size_list.
    assert (size_elems l + 1 <= String.length (dumps_tail l))%nat as T.
    { induction Hl as [|y l Hy Hl IH]; [simpl; lia|].
      simpl dumps_tail. simpl size_elems.
      rewrite !app_cons, app_nil_l.
      repeat (simpl String.length; rewrite ?length_app). lia. }
    repeat (simpl String.length; rewrite ?length_app). simpl size_elems. lia.
  - destruct Hm as [|[k x] m Hx Hm]; [simpl; lia|].
    rewrite dumps_dict_cons, size_dict. simpl snd in Hx.
    assert (size_members m + 1 <= String.length (dumps_mtail m))%nat as T.
    { induction Hm as [|[k' y] m Hy Hm IH]; [simpl; lia|].
      simpl dumps_mtail. simpl size_members. simpl snd in Hy.
      rewrite !app_cons, app_nil_l.
      repeat (simpl String.length; rewrite ?length_app). lia. }
    repeat (simpl String.length; rewrite ?length_app). simpl size_members. lia.
Qed.

(** [json.loads (json.dumps j)] is [j]. *)
Lemma loads_dumps j : loads (dumps j) = Some j.
Proof.
  unfold loads.
  rewrite <- (app_nil_r (dumps j)) at 2. rewrite skip_ws_dumps.
  rewrite decodes_all; [reflexivity | | reflexivity].
  pose proof (size_le_length j). lia.
Qed.

End JsonFacts.

#[global] Arguments Json.dumps : simpl never.
#[global] Arguments Json.loads : simpl never.
#[global] Arguments Py.isoformat : simpl never.
#[global] Arguments Text.contains : simpl never.
#[global] Arguments Py.str : simpl never.

Module EndpointFacts.
Import Text TextFacts Json JsonFacts Cache Endpoints.
Local Open Scope py_scope.

Lemma bind_return {A B} (m : M A) (k : A -> M B) p a p' :
  m p = (Return a, p') -> bind m k p = k a p'.
Proof. intros H. unfold bind. rewrite H. reflexivity. Qed.

Lemma bind_raise {A B} (m : M A) (k : A -> M B) p e p' :
  m p = (Raise e, p') -> bind m k p = (Raise e, p').
Proof. intros H. unfold bind. rewrite H. reflexivity. Qed.

Lemma connection_backend p r p' :
  get_redis_connection p = (r, p') ->
  backend p' = backend p /\ config p' = config p.
Proof.
  unfold get_redis_connection. destruct (redis_pool p).
  - intros [= <- <-]. auto.
  - destruct from_url; intros [= <- <-]; auto.
Qed.

Lemma connection_available p :
  available p = true ->
  exists pool, get_redis_connection p = (Return pool, with_pool p pool)
               /\ Redis.outage (backend p) = None.
Proof.
  unfold available, get_redis_connection, with_pool.
  destruct p as [cfg [pool|] srv]; simpl.
  - destruct (Redis.outage srv); [discriminate|]. eauto.
  - destruct from_url as [pool|e]; simpl; [|discriminate].
    destruct (Redis.outage srv); [discriminate|]. eauto.
Qed.

Lemma available_with_pool p pool s :
  Redis.outage s = None ->
  available {| config := config p; redis_pool := Some pool; backend := s |} = true.
Proof. intros H. unfold available. simpl. rewrite H. reflexivity. Qed.


Lemma store_in_cache_ok p now item ttl :
  available p = true -> Item.ttl_seconds item = Some ttl -> 0 < ttl ->
  exists pool,
    store_in_cache now item p =
    (Return [("success", JBool true);
             ("message", JStr ("Stored '" +:+ Item.key item +:+ "' in cache"));
             ("key", JStr (Item.key item));
             ("ttl_seconds", JInt ttl);
             ("cached_at", JStr (Py.isoformat now))],
     {| config := config p; redis_pool := Some pool;
        backend := written now item ttl (backend p) |}).
Proof.
  intros Ha Httl Hpos.
  destruct (connection_available p Ha) as (pool & Hc & Ho).
  exists pool. unfold store_in_cache, try_except.
  rewrite (bind_return _ _ _ _ _ Hc).
  destruct item as [k d t]. simpl in Httl. subst t.
  unfold bind, await, ret, with_pool, written, envelope.
  unfold Redis.setex, Redis.command. simpl.
  rewrite !Ho.
  destruct (Z.leb_spec ttl 0) as [?|_]; [lia|]. reflexivity.
Qed.

Lemma lookup_written now later item ttl s :
  later < now + ttl ->
  Redis.lookup later (written now item ttl s) (Item.key item) =
  Some {| Redis.value := Json.dumps (envelope now item);
          Redis.expire_at := Some (now + ttl) |}.
Proof.
  intros H. unfold Redis.lookup, written. simpl.
  rewrite lookup_insert_eq. unfold Redis.live. simpl.
  destruct (Z.ltb_spec later (now + ttl)); [reflexivity | lia].
Qed.

Lemma str_not_found (status : Z) (pre post : string) :
  contains "not found"
    (Py.str (HTTPException status (pre +:+ "not found" +:+ post))) = true.
Proof.
  unfold Py.str.
  rewrite <- (app_assoc (str_Z status) ": "), <- app_assoc.
  apply contains_app.
Qed.

Lemma get_detail_not_found key :
  contains "not found"
    (Py.str (HTTPException 404 ("Key '" +:+ key +:+ "' not found"))) = true.
Proof.
  replace ("Key '" +:+ key +:+ "' not found")
    with (("Key '" +:+ key +:+ "' ") +:+ "not found" +:+ EmptyString).
  - apply str_not_found.
  - rewrite !app_assoc. reflexivity.
Qed.

Lemma delete_detail_not_found key :
  contains "not found"
    (Py.str (HTTPException 404 ("Key '" +:+ key +:+ "' not found in cache"))) = true.
Proof.
  replace ("Key '" +:+ key +:+ "' not found in cache")
    with (("Key '" +:+ key +:+ "' ") +:+ "not found" +:+ " in cache").
  - apply str_not_found.
  - rewrite !app_assoc. reflexivity.
Qed.

(** [get_from_cache] on an available store, when no live entry is under
    the key. *)
Lemma get_from_cache_absent p now key :
  available p = true -> Redis.lookup now (backend p) key = None ->
  exists pool,
    get_from_cache now key p =
    (Raise (HTTPException 404 ("Key '" +:+ key +:+ "' not found")),
     with_pool p pool).
Proof.
  intros Ha Hl. destruct (connection_available p Ha) as (pool & Hc & Ho).
  exists pool. unfold get_from_cache, try_except.
  rewrite (bind_return _ _ _ _ _ Hc).
  unfold bind, await, with_pool, Redis.get, Redis.command. simpl.
  rewrite Ho, Hl. simpl. unfold raise.
  rewrite get_detail_not_found. reflexivity.
Qed.

Lemma delete_from_cache_spec p now key :
  available p = true ->
  exists pool,
    delete_from_cache now key p =
    (match Redis.lookup now (backend p) key with
     | Some _ =>
         Return [("success", JBool true);
                 ("message", JStr ("Deleted '" +:+ key +:+ "' from cache"))]
     | None =>
         Raise (HTTPException 404 ("Key '" +:+ key +:+ "' not found in cache"))
     end,
     {| config := config p; redis_pool := Some pool;
        backend := removed key (backend p) |}).
Proof.
  intros Ha. destruct (connection_available p Ha) as (pool & Hc & Ho).
  exists pool. unfold delete_from_cache, try_except.
  rewrite (bind_return _ _ _ _ _ Hc).
  unfold bind, await, with_pool, removed, Redis.delete, Redis.command. simpl.
  rewrite !Ho. destruct (Redis.lookup now (backend p) key); simpl.
  - reflexivity.
  - unfold raise. rewrite delete_detail_not_found. reflexivity.
Qed.

Lemma lookup_removed now key s : Redis.lookup now (removed key s) key = None.
Proof. unfold Redis.lookup, removed. simpl. rewrite lookup_delete_eq. reflexivity. Qed.

Lemma translate_ttl_never_minus_one ttl : translate_ttl ttl <> Some (-1).
Proof.
  unfold translate_ttl. destruct (Z.eqb_spec ttl (-1)); [discriminate|].
  intros [= ->]. congruence.
Qed.

(** Every [CacheResponse] that [get_from_cache] returns carries a
    translated TTL. *)
Lemma get_from_cache_ttl p now key r p' :
  get_from_cache now key p = (Return r, p') ->
  exists ttl, Response.ttl_remaining r = translate_ttl ttl.
Proof.
  unfold get_from_cache, try_except, bind.
  destruct (get_redis_connection p) as [[conn|e] p1].
  2:{ destruct e; try discriminate;
      destruct (contains _ _); discriminate. }
  destruct (await (Redis.get now key) p1) as [[[v|]|e] p2].
  3:{ destruct e; try discriminate; destruct (contains _ _); discriminate. }
  2:{ unfold raise. destruct (contains _ _); discriminate. }
  unfold lift. destruct (json_loads v) as [j|e].
  2:{ destruct e; try discriminate; destruct (contains _ _); discriminate. }
  destruct (await (Redis.ttl now key) p2) as [[ttl|e] p3].
  2:{ destruct e; try discriminate; destruct (contains _ _); discriminate. }
  destruct (Py.getitem j "data") as [d|e].
  2:{ destruct e; try discriminate; destruct (contains _ _); discriminate. }
  destruct (Py.getitem j "cached_at") as [c|e].
  2:{ destruct e; try discriminate; destruct (contains _ _); discriminate. }
  fold (translate_ttl ttl). unfold Response.new.
  destruct d, c; try (simpl; try destruct (contains _ _); discriminate).
  intros [= <- <-]. exists ttl. reflexivity.
Qed.

(** The handler of an endpoint met an exception: whatever it does, it
    does not return. *)
Ltac handler_raises x :=
  destruct x; simpl; try discriminate;
  try (destruct (contains _ _)); discriminate.

(** What [check_key_exists] answers on an available store. *)
Lemma check_key_exists_spec p now key :
  available p = true ->
  exists pool,
    check_key_exists now key p =
    (Return
       match Redis.lookup now (backend p) key with
       | Some e =>
           [("key", JStr key); ("exists", JBool true);
            ("ttl_remaining",
             match Redis.expire_at e with
             | Some t => if negb (t - now =? -1) then JInt (t - now) else JNull
             | None => JNull
             end)]
       | None => [("key", JStr key); ("exists", JBool false)]
       end,
     with_pool p pool).
Proof.
  intros Ha. destruct (connection_available p Ha) as (pool & Hc & Ho).
  exists pool. unfold check_key_exists, try_except.
  rewrite (bind_return _ _ _ _ _ Hc).
  unfold bind, await, with_pool, Redis.exists_, Redis.ttl, Redis.command. simpl.
  rewrite !Ho. destruct (Redis.lookup now (backend p) key) as [e|] eqn:L; simpl.
  - rewrite Ho, L. simpl. destruct (Redis.expire_at e); reflexivity.
  - reflexivity.
Qed.

(** Every body that [check_key_exists] returns has no [-1] under
    [ttl_remaining]. *)
Lemma check_key_exists_ttl p now key body p' :
  check_key_exists now key p = (Return body, p') ->
  Py.dict_get body "ttl_remaining" <> Some (JInt (-1)).
Proof.
  unfold check_key_exists, try_except, bind.
  destruct (get_redis_connection p) as [[conn|e] p1]; [|discriminate].
  destruct (await (Redis.exists_ now key) p1) as [[n|e] p2]; [|discriminate].
  destruct (negb (n =? 0)).
  - destruct (await (Redis.ttl now key) p2) as [[ttl|e] p3]; [|discriminate].
    unfold ret. intros [= <- <-]. simpl.
    destruct (Z.eqb_spec ttl (-1)) as [->|Hne]; simpl; [discriminate|].
    intros [= ->]. congruence.
  - unfold ret. intros [= <- <-]. discriminate.
Qed.

End EndpointFacts.

Module CacheFacts.
Import Text TextFacts Cache.

Lemma after_last_colon_app s t :
  after_last_colon t = None ->
  after_last_colon (s +:+ ":" +:+ t) = Some t.
Proof.
  intros H. induction s as [|c s IH].
  - rewrite app_nil_l, app_cons, app_nil_l. simpl. rewrite H. reflexivity.
  - rewrite app_cons. simpl. rewrite IH. reflexivity.
Qed.

Lemma get_redis_connection_first p :
  redis_pool p = None ->
  get_redis_connection p =
  match from_url (connection_url (config p)) (REDIS_PASSWORD (config p))
          None "utf-8" true 20 with
  | Return pool => (Return pool, with_pool p pool)
  | Raise e => (Raise e, p)
  end.
Proof.
  intros H. unfold get_redis_connection, connection_url. rewrite H.
  destruct (REDIS_SSL (config p)); reflexivity.
Qed.

Lemma lifespan_startup_first p :
  redis_pool p = None ->
  lifespan_startup p =
  match from_url (connection_url (config p)) (REDIS_PASSWORD (config p))
          None "utf-8" true 20 with
  | Return pool => (Return tt, with_pool p pool)
  | Raise e => (Raise e, p)
  end.
Proof.
  intros H. unfold lifespan_startup, try_except, bind.
  rewrite (get_redis_connection_first p H).
  destruct from_url; reflexivity.
Qed.

Lemma from_url_port_None ssl host password :
  from_url (connection_url {| REDIS_HOST := host; REDIS_PORT := None;
                              REDIS_PASSWORD := password; REDIS_SSL := ssl |})
    password None "utf-8" true 20 =
  Raise (ValueError "Port could not be cast to integer value as 'None'").
Proof.
  unfold connection_url, from_url. simpl REDIS_SSL. simpl REDIS_HOST.
  simpl REDIS_PORT. simpl Py.str_opt.
  destruct ssl.
  - change (strip "redis://" ("rediss" +:+ "://" +:+ ?x)) with (@None string).
    change (strip "rediss://" ("rediss" +:+ "://" +:+ ?x)) with (Some x).
    cbv beta iota. rewrite after_last_colon_app by reflexivity. reflexivity.
  - change (strip "redis://" ("redis" +:+ "://" +:+ ?x)) with (Some x).
    cbv beta iota. rewrite after_last_colon_app by reflexivity. reflexivity.
Qed.

End CacheFacts.

Module WorkflowFacts.
Import Text TextFacts Script Workflow.
Local Open Scope script_scope.

Lemma poll_loop_S fuel manager poll_interval max_wait_time start_time n w :
  poll_loop (S fuel) manager poll_interval max_wait_time start_time n w =
  if clock w - start_time <? max_wait_time then
    match status_reply manager (S (polls w)) with
    | Failed status error_text =>
        Some (Raise (status_unavailable status error_text), asked manager w)
    | Ok200 body =>
        if completed body then Some (Return body, asked manager w)
        else if failed body then
          Some (Raise (workflow_failed body), asked manager w)
        else
          poll_loop fuel manager poll_interval max_wait_time start_time (S n)
            (slept poll_interval (asked manager w))
    end
  else Some (Raise (timeout max_wait_time), w).
Proof.
  cbn [poll_loop]. unfold bind at 1. unfold time at 1.
  destruct (clock w - start_time <? max_wait_time); [|reflexivity].
  unfold try_except, bind, get_workflow_status.
  fold (asked manager w).
  destruct (status_reply manager (S (polls w))) as [body|status error_text];
    [|reflexivity].
  fold (status_of body). fold (completed body). fold (failed body).
  destruct (completed body); [reflexivity|].
  destruct (failed body); [reflexivity|].
  unfold sleep. fold (slept poll_interval (asked manager w)).
  destruct (poll_loop fuel manager poll_interval max_wait_time start_time (S n)
              (slept poll_interval (asked manager w))) as [[[a|e] w']|];
    reflexivity.
Qed.


Lemma poll_loop_decided manager poll_interval max_wait_time start_time :
  0 < poll_interval ->
  forall (budget : nat) (w : world) (n : nat),
    (Z.to_nat (max_wait_time - (clock w - start_time)) <= budget)%nat ->
    exists r w',
      (forall fuel, (budget < fuel)%nat ->
         poll_loop fuel manager poll_interval max_wait_time start_time n w
         = Some (r, w')) /\
      decided manager max_wait_time start_time w r w'.
Proof.
  intros Hpi. induction budget as [|budget IH]; intros w n Hb.
  - exists (Raise (timeout max_wait_time)), w. split.
    + intros [|fuel] Hf; [lia|]. rewrite poll_loop_S.
      destruct (Z.ltb_spec (clock w - start_time) max_wait_time); [lia|reflexivity].
    + unfold decided. repeat split; try lia.
      left. repeat split; lia.
  - destruct (Z.ltb_spec (clock w - start_time) max_wait_time) as [Hlt|Hge].
    2:{ exists (Raise (timeout max_wait_time)), w. split.
        - intros [|fuel] Hf; [lia|]. rewrite poll_loop_S.
          destruct (Z.ltb_spec (clock w - start_time) max_wait_time);
            [lia|reflexivity].
        - unfold decided. repeat split; try lia.
          left. repeat split; lia. }
    destruct (status_reply manager (S (polls w))) as [body|status error_text] eqn:Hr.
    2:{ exists (Raise (status_unavailable status error_text)), (asked manager w).
        split.
        - intros [|fuel] Hf; [lia|]. rewrite poll_loop_S, Hr.
          destruct (Z.ltb_spec (clock w - start_time) max_wait_time);
            [reflexivity|lia].
        - unfold decided, asked. simpl. repeat split; try lia.
          right. split; [lia|]. rewrite Hr. reflexivity. }
    destruct (completed body) eqn:Hc.
    { exists (Return body), (asked manager w). split.
      - intros [|fuel] Hf; [lia|]. rewrite poll_loop_S, Hr, Hc.
        destruct (Z.ltb_spec (clock w - start_time) max_wait_time);
          [reflexivity|lia].
      - unfold decided, asked. simpl. repeat split; try lia; assumption. }
    destruct (failed body) eqn:Hf'.
    { exists (Raise (workflow_failed body)), (asked manager w). split.
      - intros [|fuel] Hf; [lia|]. rewrite poll_loop_S, Hr, Hc, Hf'.
        destruct (Z.ltb_spec (clock w - start_time) max_wait_time);
          [reflexivity|lia].
      - unfold decided, asked. simpl. repeat split; try lia.
        right. split; [lia|]. rewrite Hr. auto. }
    set (w2 := slept poll_interval (asked manager w)).
    assert (clock w + poll_interval <= clock w2) as Hclock.
    { unfold w2, slept, asked. simpl. lia. }
    destruct (IH w2 (S n)) as (r & w' & Hrun & Hd); [lia|].
    exists r, w'. split.
    + intros [|fuel] Hf; [lia|]. rewrite poll_loop_S, Hr, Hc, Hf'.
      destruct (Z.ltb_spec (clock w - start_time) max_wait_time); [|lia].
      apply Hrun. lia.
    + destruct Hd as (Hs & Hsent & Hp & Hck & Hk & Hres).
      assert (polls w2 = S (polls w)) as Hp2 by reflexivity.
      assert (continues (status_reply manager (S (polls w))) = true) as Hcont.
      { rewrite Hr. simpl. rewrite Hc, Hf'. reflexivity. }
      unfold decided. rewrite Hs, Hsent. repeat split; try lia.
      * intros k Hkr. destruct (Nat.eq_dec k (S (polls w))) as [->|Hne];
          [exact Hcont | apply Hk; lia].
      * destruct r as [payload|e].
        -- destruct Hres as (? & ? & ?). repeat split; try lia; assumption.
        -- destruct Hres as [(He & Hw & Hlast)|(Hlt' & Hlast)].
           ++ left. repeat split; try assumption. intros _.
              destruct (Nat.eq_dec (polls w') (S (polls w))) as [->|Hne];
                [exact Hcont | apply Hlast; lia].
           ++ right. split; [lia | exact Hlast].
Qed.


Lemma poll_until_complete_eq fuel manager poll_interval max_wait_time w :
  poll_until_complete fuel manager poll_interval max_wait_time w =
  poll_loop fuel manager poll_interval max_wait_time (clock w) 0 w.
Proof. reflexivity. Qed.

(** The polling loop sends nothing to the cache service. *)
Lemma poll_loop_sent manager poll_interval max_wait_time start_time :
  forall fuel n w r w',
    poll_loop fuel manager poll_interval max_wait_time start_time n w
    = Some (r, w') ->
    sent w' = sent w /\ service w' = service w.
Proof.
  induction fuel as [|fuel IH]; intros n w r w'; [discriminate|].
  rewrite poll_loop_S.
  destruct (clock w - start_time <? max_wait_time); [|intros [= <- <-]; auto].
  destruct (status_reply manager (S (polls w))) as [body|status error_text];
    [|intros [= <- <-]; auto].
  destruct (completed body); [intros [= <- <-]; auto|].
  destruct (failed body); [intros [= <- <-]; auto|].
  intros H. apply IH in H. exact H.
Qed.

(** The body of the health route has no [redis_connected] field. *)
Lemma health_check_fields p now :
  exists body p',
    Endpoints.GET_health now p = ({| Endpoints.status := 200;
                                     Endpoints.body := JDict body |}, p') /\
    Py.dict_get body "redis_connected" = None.
Proof.
  unfold Endpoints.GET_health, Endpoints.serve, Endpoints.health_check.
  unfold Cache.try_except, Cache.bind, Cache.await.
  destruct (Cache.get_redis_connection p) as [[conn|e] p1].
  - unfold Redis.ping, Redis.command.
    destruct (Redis.outage (Cache.backend p1)); simpl;
      eexists _, _; split; reflexivity.
  - simpl. eexists _, _; split; reflexivity.
Qed.

Lemma client_health_check w :
  exists body p',
    Client.health_check w =
    Some (Return body,
          {| service := p'; clock := clock w;
             sent := GET_health_request :: sent w; polls := polls w |}) /\
    Py.dict_get body "redis_connected" = None.
Proof.
  destruct (health_check_fields (service w) (clock w)) as (body & p' & H & Hn).
  exists body, p'. split; [|exact Hn].
  unfold Client.health_check, bind, http. rewrite H. reflexivity.
Qed.

(** [run_workflow_with_cache] never sends a store request. *)
Lemma run_workflow_sends_no_store fuel manager inputs w r w' :
  run_workflow_with_cache fuel manager inputs w = Some (r, w') ->
  stores (sent w') = stores (sent w).
Proof.
  unfold run_workflow_with_cache, bind at 1.
  unfold trigger_workflow.
  assert (forall (k : json -> W (list (string * json))) x,
            (forall run_id, k run_id w = Some x -> stores (sent (snd x)) = stores (sent w)) ->
            forall m : W json,
              (forall y, m w = Some y -> snd y = w) ->
              match m w with
              | Some (Return a, w1) => k a w1
              | Some (Raise e, w1) => Some (Raise e, w1)
              | None => None
              end = Some x -> stores (sent (snd x)) = stores (sent w)) as Hstep.
  { intros k x Hk m Hm. destruct (m w) as [[[a|e] w1]|] eqn:E; try discriminate.
    - pose proof (Hm _ eq_refl) as Hw. simpl in Hw. subst w1. apply Hk.
    - pose proof (Hm _ eq_refl) as Hw. simpl in Hw. subst w1.
      intros [= <-]. reflexivity. }
  intros H. change w' with (snd (r, w')).
  refine (Hstep _ (r, w') _ _ _ H).
  2:{ intros y. destruct (start_reply manager) as [result|status text].
      - destruct (falsy _); intros [= <-]; reflexivity.
      - intros [= <-]; reflexivity. }
  clear H Hstep. intros run_id. unfold bind, inputs_get.
  destruct (inputs !! "accountnumber") as [a|]; [|intros [= <- <-]; reflexivity].
  destruct (inputs !! "clientid") as [c|]; [|intros [= <- <-]; reflexivity].
  simpl.
  destruct (client_health_check w) as (body & p' & -> & Hn).
  rewrite Hn. simpl.
  rewrite poll_until_complete_eq.
  match goal with
  | |- context [poll_loop fuel manager 5 3600 ?st 0 ?w1] =>
      destruct (poll_loop fuel manager 5 3600 st 0 w1) as [[[final|e] w2]|] eqn:Hp
  end; try discriminate.
  - apply poll_loop_sent in Hp as [Hs _]. simpl in Hs.
    destruct (Py.truthy final).
    + unfold Client.delete, bind, http.
      destruct (Endpoints.DELETE_cache_key _ _ _) as [resp p2].
      unfold Client.response_json.
      destruct (Endpoints.body resp); simpl; intros [= <- <-]; simpl;
        unfold stores in *; simpl; rewrite Hs; reflexivity.
    + simpl. intros [= <- <-]. simpl. unfold stores in *. rewrite Hs. reflexivity.
  - apply poll_loop_sent in Hp as [Hs _]. simpl in Hs.
    intros [= <- <-]. simpl. unfold stores in *. rewrite Hs. reflexivity.
Qed.

End WorkflowFacts.

(* ===================================================================== *)
(** ** The claims *)
(* ===================================================================== *)

Import Text TextFacts Json JsonFacts Cache Endpoints EndpointFacts CacheFacts.








(** C10. A store request whose body gives [ttl_seconds] as null is
    validated to an item without TTL (the default 3600 applies only when
    the field is left out); in every state of the service the request is
    answered with status 500 and nothing is written. *)
Theorem null_ttl_is_a_server_error
  (p : process) (now : Py.instant) (key : string) (data : list (string * json)) :
  let item := {| Item.key := key; Item.data := data; Item.ttl_seconds := None |} in
  Item.validate [("key", JStr key); ("data", JDict data); ("ttl_seconds", JNull)]
    = Return item /\
  Item.validate [("key", JStr key); ("data", JDict data)]
    = Return {| Item.key := key; Item.data := data;
                Item.ttl_seconds := Some 3600 |} /\
  exists detail p1,
    store_in_cache now item p = (Raise (HTTPException 500 detail), p1) /\
    Redis.db (backend p1) = Redis.db (backend p) /\
    status (fst (POST_cache now [("key", JStr key); ("data", JDict data);
                                 ("ttl_seconds", JNull)] p)) = 500.
Proof.
  intros item. split; [reflexivity|]. split; [reflexivity|].
  unfold POST_cache.
  change (Item.validate _) with (Return item). unfold serve.
  unfold store_in_cache, try_except, bind.
  destruct (get_redis_connection p) as [[conn|e] p1] eqn:Hc;
    destruct (connection_backend _ _ _ Hc) as [Hb _].
  - unfold await, Redis.setex, Redis.command. simpl.
    destruct (Redis.outage (backend p1)); simpl;
      eexists _, _; (split; [reflexivity|]); rewrite Hb; split; reflexivity.
  - simpl. eexists _, _. split; [reflexivity|]. rewrite Hb. split; reflexivity.
Qed.








Import Script Workflow WorkflowFacts.

(** C7. With a positive poll interval the polling loop ends, for every
    sequence of status answers, and what it does is decided as follows:
    every answer before the last let the loop go on (its status was
    neither [COMPLETED] nor [FAILED] nor [ERROR]); the loop returns a
    payload exactly when the last answer reported [COMPLETED], and the
    payload is that answer; it raises the workflow failure carrying the
    reported error when the last answer reported [FAILED] or [ERROR];
    and it raises [TimeoutError], which is not a workflow failure, once
    the budget is used up with no terminal status. *)
Theorem poll_until_complete_outcomes
  (manager : remote) (poll_interval max_wait_time : Z) (w : world) :
  0 < poll_interval ->
  exists fuel r w',
    (forall fuel', (fuel <= fuel')%nat ->
       poll_until_complete fuel' manager poll_interval max_wait_time w
       = Some (r, w')) /\
    decided manager max_wait_time (clock w) w r w' /\
    (forall body, timeout max_wait_time <> workflow_failed body).
Proof.
  intros Hpi.
  destruct (poll_loop_decided manager poll_interval max_wait_time (clock w) Hpi
              (Z.to_nat (max_wait_time - (clock w - clock w))) w 0%nat
              (Nat.le_refl _)) as (r & w' & Hrun & Hd).
  exists (S (Z.to_nat (max_wait_time - (clock w - clock w)))), r, w'.
  split; [|split].
  - intros fuel' Hf. rewrite poll_until_complete_eq. apply Hrun. lia.
  - exact Hd.
  - intros body. discriminate.
Qed.

Lemma poll_until_complete_outcomes_witness :
  0 < 5 /\
  exists fuel r w',
    (forall fuel', (fuel <= fuel')%nat ->
       poll_until_complete fuel' Sample.job 5 3600 Sample.start
       = Some (r, w')) /\
    decided Sample.job 3600 (clock Sample.start) Sample.start r w' /\
    (forall body, timeout 3600 <> workflow_failed body).
Proof.
  split; [lia|].
  apply (poll_until_complete_outcomes Sample.job 5 3600 Sample.start). lia.
Defined.


(* ===================================================================== *)
(** ** Further properties of the service, the client and the coordinator *)
(* ===================================================================== *)

Module OutageFacts.
Import Text TextFacts Json JsonFacts Cache Endpoints EndpointFacts CacheFacts.
Local Open Scope py_scope.

Lemma available_false p :
  available p = false ->
  (exists e, get_redis_connection p = (Raise e, p)) \/
  (exists pool msg,
     get_redis_connection p = (Return pool, with_pool p pool) /\
     Redis.outage (backend p) = Some msg).
Proof.
  unfold available, get_redis_connection, with_pool.
  destruct p as [cfg [pool|] srv]; simpl.
  - destruct (Redis.outage srv) as [msg|]; [|discriminate]. eauto 6.
  - destruct from_url as [pool|e]; simpl; [|eauto].
    destruct (Redis.outage srv) as [msg|]; [|discriminate]. eauto 6.
Qed.

Lemma from_url_raises url password certs encoding decode n e :
  from_url url password certs encoding decode n = Raise e ->
  exists m, e = ValueError m.
Proof.
  unfold from_url.
  repeat match goal with
         | |- context [match ?x with _ => _ end] => destruct x
         end; intros [= <-]; eauto.
Qed.

Lemma connection_raises p e p' :
  get_redis_connection p = (Raise e, p') -> p' = p /\ exists m, e = ValueError m.
Proof.
  unfold get_redis_connection. destruct (redis_pool p); [discriminate|].
  destruct from_url as [pool|x] eqn:F; [discriminate|].
  intros [= <- <-]. split; [reflexivity|]. eapply from_url_raises, F.
Qed.

(** A state in which the store cannot be used, seen from a handler:
    obtaining the connection raised, or the first command raises. *)
Ltac unavailable p Ha :=
  let e := fresh "e" in let Hc := fresh "Hc" in let pool := fresh "pool" in
  let msg := fresh "msg" in let Ho := fresh "Ho" in let m := fresh "m" in
  destruct (available_false p Ha) as [(e & Hc)|(pool & msg & Hc & Ho)];
  [ destruct (connection_raises _ _ _ Hc) as (_ & m & ->) | ];
  unfold try_except, bind; rewrite Hc.

Lemma store_unavailable p now item :
  available p = false ->
  status (fst (serve JDict (store_in_cache now item) p)) = 500 /\
  backend (snd (store_in_cache now item p)) = backend p.
Proof.
  intros Ha. unfold serve, store_in_cache. unavailable p Ha.
  - split; reflexivity.
  - unfold await, with_pool, Redis.setex, Redis.command. simpl. rewrite Ho.
    split; reflexivity.
Qed.

Lemma get_unavailable p now key :
  available p = false ->
  status (fst (GET_cache_key now key p)) = 500 /\
  backend (snd (get_from_cache now key p)) = backend p.
Proof.
  intros Ha. unfold GET_cache_key, serve, get_from_cache. unavailable p Ha.
  - unfold raise. destruct (contains _ _); split; reflexivity.
  - unfold await, with_pool, Redis.get, Redis.command. simpl. rewrite Ho.
    unfold raise. destruct (contains _ _); split; reflexivity.
Qed.

Lemma delete_unavailable p now key :
  available p = false ->
  status (fst (DELETE_cache_key now key p)) = 500 /\
  backend (snd (delete_from_cache now key p)) = backend p.
Proof.
  intros Ha. unfold DELETE_cache_key, serve, delete_from_cache. unavailable p Ha.
  - unfold raise. destruct (contains _ _); split; reflexivity.
  - unfold await, with_pool, Redis.delete, Redis.command. simpl. rewrite Ho.
    unfold raise. destruct (contains _ _); split; reflexivity.
Qed.

Lemma exists_unavailable p now key :
  available p = false ->
  status (fst (GET_cache_key_exists now key p)) = 500 /\
  backend (snd (check_key_exists now key p)) = backend p.
Proof.
  intros Ha. unfold GET_cache_key_exists, serve, check_key_exists.
  unavailable p Ha.
  - split; reflexivity.
  - unfold await, with_pool, Redis.exists_, Redis.command. simpl. rewrite Ho.
    split; reflexivity.
Qed.

Lemma list_unavailable p now pattern :
  available p = false ->
  status (fst (GET_cache now pattern p)) = 500 /\
  backend (snd (list_cache_keys now (default "*" pattern) p)) = backend p.
Proof.
  intros Ha. unfold GET_cache, serve, list_cache_keys. unavailable p Ha.
  - split; reflexivity.
  - unfold await, with_pool, Redis.keys, Redis.command. simpl. rewrite Ho.
    split; reflexivity.
Qed.

End OutageFacts.

Import Text TextFacts Json JsonFacts Cache Endpoints EndpointFacts CacheFacts.
Import OutageFacts.

(** X1. When the store cannot be used (the connection cannot be
    obtained, or the server does not answer), storing, reading,
    deleting, probing and listing are each answered with status 500,
    and none of them changes the server. *)
Theorem unavailable_store_is_a_server_error
  (p : process) (now : Py.instant) (item : Item.CacheItem) (key : string)
  (pattern : option string) :
  available p = false ->
  (status (fst (serve JDict (store_in_cache now item) p)) = 500 /\
   backend (snd (store_in_cache now item p)) = backend p) /\
  (status (fst (GET_cache_key now key p)) = 500 /\
   backend (snd (get_from_cache now key p)) = backend p) /\
  (status (fst (DELETE_cache_key now key p)) = 500 /\
   backend (snd (delete_from_cache now key p)) = backend p) /\
  (status (fst (GET_cache_key_exists now key p)) = 500 /\
   backend (snd (check_key_exists now key p)) = backend p) /\
  (status (fst (GET_cache now pattern p)) = 500 /\
   backend (snd (list_cache_keys now (default "*" pattern) p)) = backend p).
Proof.
  intros Ha. repeat apply conj.
  all: first [ apply store_unavailable | apply get_unavailable
             | apply delete_unavailable | apply exists_unavailable
             | apply list_unavailable ]; exact Ha.
Qed.

Lemma unavailable_store_is_a_server_error_witness :
  available Sample.down = false /\
  status (fst (GET_cache_key 5 "k" Sample.down)) = 500.
Proof.
  split; [reflexivity|].
  destruct (unavailable_store_is_a_server_error Sample.down 5
              {| Item.key := "k"; Item.data := []; Item.ttl_seconds := Some 1 |}
              "k" None eq_refl) as (_ & (H & _) & _).
  exact H.
Defined.

Module ReadFacts.
Import Text TextFacts Json JsonFacts Cache Endpoints EndpointFacts CacheFacts.
Local Open Scope py_scope.

Lemma json_loads_state s :
  json_loads s = match Json.loads s with
                 | Some j => Return j
                 | None => Raise (JSONDecodeError "Expecting value")
                 end.
Proof. reflexivity. Qed.

(** The connection leaves the server alone. *)
Lemma connection_keeps_backend p :
  backend (snd (get_redis_connection p)) = backend p.
Proof.
  destruct (get_redis_connection p) as [r p'] eqn:E.
  apply connection_backend in E as [E _]. exact E.
Qed.

Lemma get_keeps_backend p now key :
  backend (snd (get_from_cache now key p)) = backend p.
Proof.
  unfold get_from_cache, try_except, bind.
  destruct (get_redis_connection p) as [[conn|e] p1] eqn:Hc;
    apply connection_backend in Hc as [Hb _].
  2:{ destruct e; unfold raise; try destruct (contains _ _); exact Hb. }
  unfold await, Redis.get, Redis.ttl, Redis.command.
  destruct (Redis.outage (backend p1)) as [msg|] eqn:Ho; simpl.
  { unfold raise. destruct (contains _ _); exact Hb. }
  destruct (Redis.lookup now (backend p1) key) as [e|]; simpl.
  2:{ unfold raise. destruct (contains _ _); exact Hb. }
  unfold lift. destruct (json_loads (Redis.value e)) as [j|x]; simpl.
  2:{ destruct x; unfold raise; try destruct (contains _ _); exact Hb. }
  rewrite Ho. simpl.
  destruct (Py.getitem j "data") as [d|x]; simpl.
  2:{ destruct x; unfold raise; try destruct (contains _ _); exact Hb. }
  destruct (Py.getitem j "cached_at") as [c|x]; simpl.
  2:{ destruct x; unfold raise; try destruct (contains _ _); exact Hb. }
  destruct (Response.new _ _ _ _) as [r|x]; simpl; [exact Hb|].
  destruct x; unfold raise; try destruct (contains _ _); exact Hb.
Qed.

Lemma exists_keeps_backend p now key :
  backend (snd (check_key_exists now key p)) = backend p.
Proof.
  unfold check_key_exists, try_except, bind.
  destruct (get_redis_connection p) as [[conn|e] p1] eqn:Hc;
    apply connection_backend in Hc as [Hb _]; [|exact Hb].
  unfold await, Redis.exists_, Redis.ttl, Redis.command.
  destruct (Redis.outage (backend p1)) as [msg|] eqn:Ho; simpl; [exact Hb|].
  destruct (Redis.lookup now (backend p1) key); simpl; [|exact Hb].
  rewrite Ho. exact Hb.
Qed.

Lemma health_keeps_backend p now :
  backend (snd (health_check now p)) = backend p.
Proof.
  unfold health_check, try_except, bind.
  destruct (get_redis_connection p) as [[conn|e] p1] eqn:Hc;
    apply connection_backend in Hc as [Hb _]; [|exact Hb].
  unfold await, Redis.ping, Redis.command.
  destruct (Redis.outage (backend p1)); exact Hb.
Qed.

Lemma list_keeps_backend p now pattern :
  backend (snd (list_cache_keys now pattern p)) = backend p.
Proof.
  unfold list_cache_keys, try_except, bind.
  destruct (get_redis_connection p) as [[conn|e] p1] eqn:Hc;
    apply connection_backend in Hc as [Hb _]; [|exact Hb].
  unfold await, Redis.keys, Redis.command.
  destruct (Redis.outage (backend p1)); exact Hb.
Qed.

End ReadFacts.

Import Text TextFacts Json JsonFacts Cache Endpoints EndpointFacts CacheFacts.
Import ReadFacts.

(** X2. Reading never writes: in every state and whatever they answer,
    [get_from_cache], [check_key_exists], [list_cache_keys] and
    [health_check] leave the server as it was, so an entry can be read
    any number of times. *)
Theorem reads_leave_the_store_unchanged
  (p : process) (now : Py.instant) (key pattern : string) :
  backend (snd (get_from_cache now key p)) = backend p /\
  backend (snd (check_key_exists now key p)) = backend p /\
  backend (snd (list_cache_keys now pattern p)) = backend p /\
  backend (snd (health_check now p)) = backend p.
Proof.
  split; [apply get_keeps_backend|].
  split; [apply exists_keeps_backend|].
  split; [apply list_keeps_backend | apply health_keeps_backend].
Qed.


Module EntryFacts.
Import Text TextFacts Json JsonFacts Cache Endpoints EndpointFacts CacheFacts.
Local Open Scope py_scope.

Lemma lookup_live now s key e :
  Redis.lookup now s key = Some e -> Redis.live now e = true.
Proof.
  unfold Redis.lookup. destruct (Redis.db s !! key) as [e'|]; [|discriminate].
  destruct (Redis.live now e') eqn:L; [|discriminate]. intros [= <-]. exact L.
Qed.

Lemma lookup_written_expired now later item ttl s :
  now + ttl <= later ->
  Redis.lookup later (written now item ttl s) (Item.key item) = None.
Proof.
  intros H. unfold Redis.lookup, written. simpl.
  rewrite lookup_insert_eq. unfold Redis.live. simpl.
  destruct (Z.ltb_spec later (now + ttl)); [lia | reflexivity].
Qed.

Lemma lookup_written_other now at_ item ttl s key :
  key <> Item.key item ->
  Redis.lookup at_ (written now item ttl s) key = Redis.lookup at_ s key.
Proof.
  intros H. unfold Redis.lookup, written. simpl.
  rewrite lookup_insert_ne by congruence. reflexivity.
Qed.

Lemma lookup_removed_other at_ key s key' :
  key' <> key ->
  Redis.lookup at_ (removed key s) key' = Redis.lookup at_ s key'.
Proof.
  intros H. unfold Redis.lookup, removed. simpl.
  rewrite lookup_delete_ne by congruence. reflexivity.
Qed.

(** What [get_from_cache] answers, on an available store, is decided by
    the live entry under the key. *)
Lemma get_from_cache_depends p q now key :
  available p = true -> available q = true ->
  Redis.lookup now (backend p) key = Redis.lookup now (backend q) key ->
  fst (get_from_cache now key p) = fst (get_from_cache now key q).
Proof.
  intros Hp Hq Hl.
  destruct (connection_available p Hp) as (pool & Hc & Ho).
  destruct (connection_available q Hq) as (pool' & Hc' & Ho').
  unfold get_from_cache, try_except.
  rewrite (bind_return _ _ _ _ _ Hc), (bind_return _ _ _ _ _ Hc').
  unfold bind, await, with_pool, Redis.get, Redis.ttl, Redis.command. simpl.
  rewrite Ho, Ho', <- Hl.
  destruct (Redis.lookup now (backend p) key) as [e|] eqn:Lp; simpl.
  2:{ unfold raise. destruct (contains _ _); reflexivity. }
  unfold lift. destruct (json_loads (Redis.value e)) as [j|x]; simpl.
  2:{ destruct x; unfold raise; try destruct (contains _ _); reflexivity. }
  rewrite Ho, Ho', <- Hl, Lp. simpl.
  destruct (Py.getitem j "data") as [d|x]; simpl.
  2:{ destruct x; unfold raise; try destruct (contains _ _); reflexivity. }
  destruct (Py.getitem j "cached_at") as [c|x]; simpl.
  2:{ destruct x; unfold raise; try destruct (contains _ _); reflexivity. }
  destruct (Response.new _ _ _ _) as [r|x]; simpl; [reflexivity|].
  destruct x; unfold raise; try destruct (contains _ _); reflexivity.
Qed.

(** [get_from_cache] of a key whose live entry was written by
    [store_in_cache]. *)
Lemma get_from_cache_envelope p now later item expiry :
  available p = true ->
  Redis.lookup later (backend p) (Item.key item) =
    Some {| Redis.value := Json.dumps (envelope now item);
            Redis.expire_at := Some expiry |} ->
  exists pool,
    get_from_cache later (Item.key item) p =
    (Return {| Response.key := Item.key item;
               Response.data := Item.data item;
               Response.cached_at := Py.isoformat now;
               Response.ttl_remaining := Some (expiry - later) |},
     with_pool p pool).
Proof.
  intros Ha L. destruct (connection_available p Ha) as (pool & Hc & Ho).
  pose proof (lookup_live _ _ _ _ L) as Hlive. unfold Redis.live in Hlive.
  simpl in Hlive. apply Z.ltb_lt in Hlive.
  exists pool. unfold get_from_cache, try_except.
  rewrite (bind_return _ _ _ _ _ Hc).
  unfold bind, await, with_pool, Redis.get, Redis.ttl, Redis.command. simpl.
  rewrite Ho, L. simpl. unfold lift, json_loads. rewrite loads_dumps. simpl.
  rewrite Ho, L. simpl.
  destruct (Z.eqb_spec (expiry - later) (-1)) as [?|_]; [lia|]. reflexivity.
Qed.

End EntryFacts.

Import Text TextFacts Json JsonFacts Cache Endpoints EndpointFacts CacheFacts.
Import EntryFacts.







Import Text TextFacts Json JsonFacts Cache Endpoints EndpointFacts CacheFacts.
Import EntryFacts.



(** X8. Storing and deleting touch one key only: after a successful
    [store_in_cache] or a [delete_from_cache] of [key], every other key
    is answered by [get_from_cache] exactly as before. *)
Theorem other_keys_are_untouched
  (p : process) (now at_ : Py.instant) (key other : string)
  (data : list (string * json)) (ttl : Z) :
  available p = true -> 0 < ttl -> other <> key ->
  let item := {| Item.key := key; Item.data := data;
                 Item.ttl_seconds := Some ttl |} in
  fst (get_from_cache at_ other (snd (store_in_cache now item p))) =
    fst (get_from_cache at_ other p) /\
  fst (get_from_cache at_ other (snd (delete_from_cache now key p))) =
    fst (get_from_cache at_ other p).
Proof.
  intros Ha Hpos Hne item.
  destruct (store_in_cache_ok p now item ttl Ha eq_refl Hpos) as (pool & Hs).
  destruct (delete_from_cache_spec p now key Ha) as (pool' & Hd).
  destruct (connection_available p Ha) as (_ & _ & Ho).
  rewrite Hs, Hd. simpl. split.
  - apply get_from_cache_depends; [apply available_with_pool; exact Ho | exact Ha |].
    apply (lookup_written_other now at_ item ttl). exact Hne.
  - apply get_from_cache_depends; [apply available_with_pool; exact Ho | exact Ha |].
    apply lookup_removed_other. exact Hne.
Qed.

Lemma other_keys_are_untouched_witness :
  let p := Sample.holding "a" "v" None in
  available p = true /\
  fst (get_from_cache 7 "a"
         (snd (store_in_cache 5 {| Item.key := "b"; Item.data := [];
                                   Item.ttl_seconds := Some 9 |} p))) =
    fst (get_from_cache 7 "a" p) /\
  fst (get_from_cache 7 "a" (snd (delete_from_cache 5 "b" p))) =
    fst (get_from_cache 7 "a" p).
Proof.
  intros p. split; [reflexivity|].
  apply (other_keys_are_untouched p 5 7 "b" "a" [] 9);
    [reflexivity | lia | discriminate].
Defined.

Module ListingFacts.
Import Text TextFacts Json JsonFacts Cache Endpoints EndpointFacts CacheFacts.
Import Listing.
Local Open Scope py_scope.

Lemma NoDup_map_filter {A B} (f : A -> B) (g : A -> bool) (l : list A) :
  List.NoDup (List.map f l) -> List.NoDup (List.map f (List.filter g l)).
Proof.
  induction l as [|x l IH]; simpl; [auto|].
  intros H. inversion H as [|? ? Hx Hl]; subst.
  destruct (g x); simpl; [|auto].
  constructor; [|auto]. intros Hin. apply Hx.
  apply in_map_iff in Hin as (y & <- & Hy). apply filter_In in Hy as [Hy _].
  apply in_map. exact Hy.
Qed.

Lemma listed_NoDup now pattern s : List.NoDup (listed now pattern s).
Proof.
  unfold listed. apply NoDup_map_filter.
  apply NoDup_ListNoDup. apply NoDup_fst_map_to_list.
Qed.

Lemma listed_In now pattern s k :
  In k (listed now pattern s) <->
  Redis.lookup now s k <> None /\ Redis.matches pattern k = true.
Proof.
  unfold listed, Redis.lookup. rewrite in_map_iff. split.
  - intros ([k' e] & <- & Hin). apply filter_In in Hin as [Hin Hf].
    apply list_elem_of_In, elem_of_map_to_list in Hin. simpl in *.
    apply andb_true_iff in Hf as [Hl Hm]. rewrite Hin, Hl. split; [discriminate|exact Hm].
  - intros [Hl Hm]. destruct (Redis.db s !! k) as [e|] eqn:E; [|congruence].
    destruct (Redis.live now e) eqn:L; [|congruence].
    exists (k, e). split; [reflexivity|]. apply filter_In. split.
    + apply list_elem_of_In, elem_of_map_to_list. exact E.
    + simpl. rewrite L, Hm. reflexivity.
Qed.

Lemma list_cache_keys_spec p now pattern :
  available p = true ->
  exists pool,
    list_cache_keys now pattern p =
    (Return [("pattern", JStr pattern);
             ("keys", JList (List.map JStr (listed now pattern (backend p))));
             ("count", JInt (Z.of_nat (length (listed now pattern (backend p)))))],
     with_pool p pool).
Proof.
  intros Ha. destruct (connection_available p Ha) as (pool & Hc & Ho).
  exists pool. unfold list_cache_keys, try_except.
  rewrite (bind_return _ _ _ _ _ Hc).
  unfold bind, await, with_pool, Redis.keys, Redis.command. simpl.
  rewrite Ho. reflexivity.
Qed.

Lemma glob_literal p :
  literal p = true -> forall s, Redis.glob p (Redis.Plain s) = String.eqb p s.
Proof.
  induction p as [|a p IH]; intros Hl s.
  - destruct s; reflexivity.
  - simpl in Hl. repeat (apply andb_true_iff in Hl as [Hl ?]).
    repeat match goal with
           | H : negb _ = true |- _ => apply negb_true_iff in H
           end.
    destruct s as [|c s].
    + simpl. rewrite Hl. reflexivity.
    + cbn [Redis.glob]. rewrite Hl, H2, H1, H0.
      rewrite IH by assumption. simpl. destruct (Ascii.eqb a c); reflexivity.
Qed.

Lemma matches_literal p k :
  literal p = true -> Redis.matches p k = String.eqb p k.
Proof.
  intros Hl. unfold Redis.matches.
  assert (String.eqb p "*" = false) as ->.
  { destruct p as [|a p]; [reflexivity|]. simpl in Hl.
    repeat (apply andb_true_iff in Hl as [Hl ?]).
    apply negb_true_iff in Hl. simpl.
    rewrite Hl. reflexivity. }
  simpl. destruct k as [|c k].
  - destruct p; reflexivity.
  - apply glob_literal. exact Hl.
Qed.

Lemma matches_star k : Redis.matches "*" k = true.
Proof. reflexivity. Qed.

Lemma NoDup_singleton_list {A} (x : A) (l : list A) :
  List.NoDup l -> (forall k, In k l <-> k = x) -> l = [x].
Proof.
  intros Hn Hin. destruct l as [|a l].
  - exfalso. apply (Hin x). reflexivity.
  - assert (a = x) as -> by (apply Hin; left; reflexivity).
    destruct l as [|b l]; [reflexivity|].
    assert (b = x) as -> by (apply Hin; right; left; reflexivity).
    inversion Hn as [|? ? Hx _]; subst. exfalso. apply Hx. left. reflexivity.
Qed.

Lemma NoDup_empty_list {A} (l : list A) : (forall k, ~ In k l) -> l = [].
Proof. destruct l as [|a l]; [reflexivity|]. intros H. destruct (H a). left. reflexivity. Qed.

End ListingFacts.

Import Text TextFacts Json JsonFacts Cache Endpoints EndpointFacts CacheFacts.
Import EntryFacts Listing ListingFacts.







Module BulkFacts.
Import Text TextFacts Json JsonFacts Cache Endpoints EndpointFacts CacheFacts.
Import EntryFacts.
Import Bulk.
Local Open Scope py_scope.

Lemma existsb_unencodable now items :
  existsb Redis.unencodable (pipe now items) = negb (forallb has_ttl items).
Proof.
  induction items as [|item items IH]; [reflexivity|].
  simpl. rewrite IH. unfold has_ttl.
  destruct (Item.ttl_seconds item); reflexivity.
Qed.

(** Running the queued commands of a batch in which every item has a
    TTL: the server is still reachable, there is an error among the
    answers exactly when some item is not accepted, and a key holds the
    entry of the last accepted item that has it. *)
Lemma run_pipe now items :
  forallb has_ttl items = true ->
  forall s, Redis.outage s = None ->
    exists answers s',
      Redis.run now (pipe now items) s = (answers, s') /\
      Redis.outage s' = None /\
      (Redis.first_error answers = None <-> forallb accepted items = true) /\
      (forall e, Redis.first_error answers = Some e ->
                 e = ResponseError "invalid expire time in 'setex' command") /\
      length answers = length items /\
      forall at_ key,
        Redis.lookup at_ s' key =
        match last_accepted key items with
        | Some item =>
            if Redis.live at_ (entry_of now item)
            then Some (entry_of now item) else None
        | None => Redis.lookup at_ s key
        end.
Proof.
  induction items as [|item items IH]; intros Hall s Ho.
  - exists [], s. simpl. repeat split; auto; discriminate.
  - simpl in Hall. apply andb_true_iff in Hall as [Hi Hall].
    unfold has_ttl in Hi. destruct item as [k d [t|]]; [|discriminate].
    change (pipe now ({| Item.key := k; Item.data := d;
                         Item.ttl_seconds := Some t |} :: items))
      with ((k, Some t,
             Json.dumps (envelope now {| Item.key := k; Item.data := d;
                                         Item.ttl_seconds := Some t |}))
              :: pipe now items).
    cbn [Redis.run].
    unfold Redis.setex at 1, Redis.command. rewrite Ho.
    destruct (Z.leb_spec t 0) as [Hle|Hpos].
    + destruct (IH Hall s Ho) as (answers & s' & Hr & Ho' & Herr & He & Hlen & Hl).
      rewrite Hr. eexists _, s'. split; [reflexivity|]. split; [exact Ho'|].
      assert (accepted {| Item.key := k; Item.data := d;
                          Item.ttl_seconds := Some t |} = false) as Hacc.
      { unfold accepted. simpl. apply Z.ltb_ge. exact Hle. }
      split; [|split; [|split]].
      * simpl. rewrite Hacc. simpl. split; discriminate.
      * simpl. intros e [= <-]. reflexivity.
      * simpl. rewrite Hlen. reflexivity.
      * intros at_ key. rewrite Hl. simpl. rewrite Hacc. simpl.
        destruct (last_accepted key items); reflexivity.
    + set (item := {| Item.key := k; Item.data := d; Item.ttl_seconds := Some t |}).
      set (s1 := {| Redis.db := _; Redis.outage := _ |}).
      destruct (IH Hall s1 eq_refl) as (answers & s' & Hr & Ho' & Herr & He & Hlen & Hl).
      rewrite Hr. eexists _, s'. split; [reflexivity|]. split; [exact Ho'|].
      assert (accepted item = true) as Hacc.
      { unfold accepted. simpl. apply Z.ltb_lt. exact Hpos. }
      split; [|split; [|split]].
      * simpl. rewrite Hacc. simpl. exact Herr.
      * simpl. exact He.
      * simpl. rewrite Hlen. reflexivity.
      * intros at_ key. rewrite Hl. simpl.
        destruct (last_accepted key items); [reflexivity|].
        rewrite Hacc. simpl.
        destruct (String.eqb_spec k key) as [->|Hne].
        -- unfold Redis.lookup, s1. simpl. rewrite lookup_insert_eq. reflexivity.
        -- unfold Redis.lookup, s1. simpl.
           rewrite lookup_insert_ne by exact Hne. reflexivity.
Qed.

Lemma pipe_eq now items :
  List.map (fun item =>
              (Item.key item, Item.ttl_seconds item,
               Json.dumps
                 (JDict [("data", JDict (Item.data item));
                         ("cached_at", JStr (Py.isoformat now));
                         ("original_ttl", opt_int (Item.ttl_seconds item))])))
    items = pipe now items.
Proof. reflexivity. Qed.

Lemma execute_nonempty now stack s :
  stack <> [] ->
  Redis.execute now stack s =
  Redis.command s
    (if existsb Redis.unencodable stack then
       (Raise (DataError
          "Invalid input of type: 'NoneType'. Convert to a bytes, string, int or float first."),
        s)
     else
       let '(answers, s') := Redis.run now stack s in
       match Redis.first_error answers with
       | Some e => (Raise e, s')
       | None => (Return (List.map (fun _ => true) answers), s')
       end).
Proof. destruct stack; [congruence | reflexivity]. Qed.

(** [store_bulk_in_cache] of a batch with at least one item, each with
    a TTL, on an available store. *)
Lemma store_bulk_spec p now items :
  available p = true -> items <> [] -> forallb has_ttl items = true ->
  exists pool s',
    store_bulk_in_cache now items p =
    (if forallb accepted items then Return (bulk_success items)
     else Raise (HTTPException 500
                   ("Failed to store bulk items: "
                      +:+ "invalid expire time in 'setex' command")),
     {| config := config p; redis_pool := Some pool; backend := s' |}) /\
    Redis.outage s' = None /\
    forall at_ key,
      Redis.lookup at_ s' key =
      match last_accepted key items with
      | Some item =>
          if Redis.live at_ (entry_of now item)
          then Some (entry_of now item) else None
      | None => Redis.lookup at_ (backend p) key
      end.
Proof.
  intros Ha Hne Hall.
  destruct (connection_available p Ha) as (pool & Hc & Ho).
  destruct (run_pipe now items Hall (backend p) Ho)
    as (answers & s' & Hr & Ho' & Herr & He & Hlen & Hl).
  exists pool, s'. split; [|split; [exact Ho' | exact Hl]].
  unfold store_bulk_in_cache, try_except.
  rewrite (bind_return _ _ _ _ _ Hc). rewrite pipe_eq.
  unfold bind, await, with_pool. simpl.
  rewrite execute_nonempty by (destruct items; [congruence | discriminate]).
  unfold Redis.command. rewrite Ho.
  rewrite existsb_unencodable, Hall. simpl. rewrite Hr.
  destruct (Redis.first_error answers) as [e|] eqn:Hfe.
  - rewrite (He e eq_refl).
    destruct (forallb accepted items) eqn:Hacc.
    + destruct Herr as [_ Herr]. specialize (Herr eq_refl). congruence.
    + reflexivity.
  - destruct Herr as [Herr _]. rewrite (Herr eq_refl). reflexivity.
Qed.

End BulkFacts.

Module BulkReadFacts.
Import Text TextFacts Json JsonFacts Cache Endpoints EndpointFacts CacheFacts.
Import OutageFacts EntryFacts Bulk BulkFacts.
Local Open Scope py_scope.

Lemma last_accepted_Some key items item :
  last_accepted key items = Some item ->
  Item.key item = key /\ accepted item = true /\ In item items.
Proof.
  induction items as [|x items IH]; [discriminate|]. simpl.
  destruct (last_accepted key items) as [later|].
  - intros [= <-]. destruct (IH eq_refl) as (? & ? & ?). auto.
  - destruct (accepted x) eqn:Ha; [|discriminate]. simpl.
    destruct (String.eqb_spec (Item.key x) key); [|discriminate].
    intros [= <-]. auto.
Qed.

(** After a batch in which every item has a TTL, the last accepted item
    with a key can be read back under that key until its TTL runs
    out. *)
Lemma bulk_then_get p now later items key item ttl :
  available p = true -> items <> [] -> forallb has_ttl items = true ->
  last_accepted key items = Some item ->
  Item.ttl_seconds item = Some ttl -> later < now + ttl ->
  exists p3,
    get_from_cache later key (snd (store_bulk_in_cache now items p)) =
    (Return {| Response.key := key; Response.data := Item.data item;
               Response.cached_at := Py.isoformat now;
               Response.ttl_remaining := Some (now + ttl - later) |}, p3).
Proof.
  intros Ha Hne Hall Hlast Httl Hwin.
  destruct (store_bulk_spec p now items Ha Hne Hall) as (pool & s' & Hs & Ho & Hl).
  destruct (last_accepted_Some _ _ _ Hlast) as (Hk & _ & _).
  rewrite Hs. simpl snd.
  set (p1 := {| config := config p; redis_pool := Some pool; backend := s' |}).
  assert (available p1 = true) as Ha1 by (apply available_with_pool; exact Ho).
  destruct (get_from_cache_envelope p1 now later item (now + ttl) Ha1) as (pool3 & Hg).
  { simpl. rewrite Hk, Hl, Hlast. unfold entry_of, Redis.live. rewrite Httl. simpl.
    destruct (Z.ltb_spec later (now + ttl)); [reflexivity | lia]. }
  rewrite Hk in Hg. eexists. exact Hg.
Qed.

End BulkReadFacts.

Import Text TextFacts Json JsonFacts Cache Endpoints EndpointFacts CacheFacts.
Import OutageFacts EntryFacts Bulk BulkFacts BulkReadFacts.





(** X14. One item without a TTL spoils the whole batch: in every state
    [store_bulk_in_cache] is then answered with status 500 and nothing
    at all is written, not even the items that have a valid TTL. *)
Theorem bulk_store_with_a_null_ttl_writes_nothing
  (p : process) (now : Py.instant) (items : list Item.CacheItem) :
  forallb has_ttl items = false ->
  status (fst (serve JDict (store_bulk_in_cache now items) p)) = 500 /\
  backend (snd (store_bulk_in_cache now items p)) = backend p.
Proof.
  intros Hn.
  assert (items <> []) as Hne by (destruct items; [discriminate | congruence]).
  unfold serve, store_bulk_in_cache, try_except, bind.
  destruct (get_redis_connection p) as [[conn|e] p1] eqn:Hc;
    apply connection_backend in Hc as [Hb _].
  - rewrite pipe_eq. unfold await.
    rewrite execute_nonempty by (destruct items; [congruence | discriminate]).
    unfold Redis.command.
    destruct (Redis.outage (backend p1)) as [msg|]; simpl.
    + split; [reflexivity | exact Hb].
    + rewrite existsb_unencodable, Hn. simpl. split; [reflexivity | exact Hb].
  - simpl. split; [reflexivity | exact Hb].
Qed.

Lemma bulk_store_with_a_null_ttl_writes_nothing_witness :
  let a := {| Item.key := "k1"; Item.data := []; Item.ttl_seconds := Some 60 |} in
  let b := {| Item.key := "k2"; Item.data := []; Item.ttl_seconds := None |} in
  forallb has_ttl [a; b] = false /\
  status (fst (serve JDict (store_bulk_in_cache 100 [a; b]) Sample.fresh)) = 500 /\
  backend (snd (store_bulk_in_cache 100 [a; b] Sample.fresh)) = backend Sample.fresh.
Proof.
  intros a b. split; [reflexivity|].
  apply (bulk_store_with_a_null_ttl_writes_nothing Sample.fresh 100 [a; b]).
  reflexivity.
Defined.

(** X15. An empty batch sends nothing to the server: once the pool
    exists, [store_bulk_in_cache] of no items succeeds and reports no
    keys even while the server cannot be reached (when a single
    [store_in_cache] is answered with status 500), and it changes
    nothing. *)
Theorem empty_batch_needs_no_server
  (p : process) (now : Py.instant) (pool : ConnectionPool) (msg : string)
  (item : Item.CacheItem) :
  redis_pool p = Some pool -> Redis.outage (backend p) = Some msg ->
  store_bulk_in_cache now [] p =
    (Return [("success", JBool true);
             ("message", JStr "Stored 0 items in cache");
             ("keys", JList [])], p) /\
  status (fst (serve JDict (store_bulk_in_cache now []) p)) = 200 /\
  status (fst (serve JDict (store_in_cache now item) p)) = 500.
Proof.
  intros Hp Ho.
  assert (get_redis_connection p = (Return pool, p)) as Hc
    by (unfold get_redis_connection; rewrite Hp; reflexivity).
  unfold serve, store_bulk_in_cache, store_in_cache, try_except.
  rewrite !(bind_return _ _ _ _ _ Hc).
  unfold bind, await, Redis.setex, Redis.command. simpl. rewrite Ho.
  destruct p as [cfg rp srv]. simpl. repeat split.
Qed.

Lemma empty_batch_needs_no_server_witness :
  let p := snd (lifespan_startup Sample.down) in
  (exists pool, redis_pool p = Some pool) /\
  Redis.outage (backend p) = Some "Error connecting to localhost:6379" /\
  status (fst (serve JDict (store_bulk_in_cache 100 []) p)) = 200 /\
  status (fst (serve JDict (store_in_cache 100
                 {| Item.key := "k"; Item.data := [];
                    Item.ttl_seconds := Some 60 |}) p)) = 500.
Proof.
  intros p. split; [eexists; reflexivity|]. split; [reflexivity|].
  destruct (empty_batch_needs_no_server p 100 _
              "Error connecting to localhost:6379"
              {| Item.key := "k"; Item.data := []; Item.ttl_seconds := Some 60 |}
              eq_refl eq_refl) as (_ & H1 & H2).
  split; assumption.
Defined.

Module ClientFacts.
Import Text TextFacts Json JsonFacts Cache Endpoints EndpointFacts CacheFacts.
Import OutageFacts EntryFacts.
Import Exchange.

Lemma http_eq req route w :
  Script.http req route w =
  Some (Return (fst (route (clock w) (service w))),
        after req (snd (route (clock w) (service w))) w).
Proof.
  unfold Script.http, after. destruct (route (clock w) (service w)). reflexivity.
Qed.

Lemma validate_payload key data ttl :
  Item.validate [("key", JStr key); ("data", JDict data); ("ttl_seconds", JInt ttl)]
  = Return {| Item.key := key; Item.data := data; Item.ttl_seconds := Some ttl |}.
Proof. reflexivity. Qed.

Lemma client_store_eq key data ttl w :
  Client.store key data ttl w =
  Client.response_json
    (respond JDict
       (fst (store_in_cache (clock w)
               {| Item.key := key; Item.data := data;
                  Item.ttl_seconds := Some ttl |} (service w))))
    (after (POST_cache_request
              [("key", JStr key); ("data", JDict data);
               ("ttl_seconds", JInt ttl)])
       (snd (store_in_cache (clock w)
               {| Item.key := key; Item.data := data;
                  Item.ttl_seconds := Some ttl |} (service w))) w).
Proof.
  unfold Client.store, Script.bind. rewrite http_eq.
  unfold POST_cache. rewrite validate_payload. unfold serve.
  destruct (store_in_cache _ _ _). reflexivity.
Qed.

Lemma client_get_eq key w :
  Client.get key w =
  match Script.http (GET_cache_request key)
          (fun now => GET_cache_key now key) w with
  | Some (Return response, w') =>
      if status response =? 200 then
        match body response with
        | JDict result =>
            match Py.getitem (JDict result) "data" with
            | Return data => Some (Return (Some data), w')
            | Raise e => Some (Raise e, w')
            end
        | _ => Some (Raise (Exception
                              "Attempt to decode JSON with unexpected mimetype"), w')
        end
      else Some (Return None, w')
  | Some (Raise e, w') => Some (Raise e, w')
  | None => None
  end.
Proof.
  unfold Client.get, Script.bind.
  destruct (Script.http _ _ w) as [[[response|e] w']|]; try reflexivity.
  destruct (status response =? 200); [|reflexivity].
  unfold Client.response_json.
  destruct (body response); reflexivity.
Qed.

Lemma client_delete_eq key w :
  Client.delete key w =
  Client.response_json
    (respond JDict (fst (delete_from_cache (clock w) key (service w))))
    (after (DELETE_cache_request key)
       (snd (delete_from_cache (clock w) key (service w))) w).
Proof.
  unfold Client.delete, Script.bind. rewrite http_eq.
  unfold DELETE_cache_key, serve.
  destruct (delete_from_cache _ _ _). reflexivity.
Qed.

End ClientFacts.

Import Text TextFacts Json JsonFacts Cache Endpoints EndpointFacts CacheFacts.
Import OutageFacts EntryFacts Exchange ClientFacts.







Module RunFacts.
Import Text TextFacts Script Workflow WorkflowFacts.
Local Open Scope script_scope.

(** What the polling loop can end with, for any number of iterations:
    a payload that reports [COMPLETED], or one of three exceptions; it
    sends nothing to the cache service. *)
Lemma poll_loop_ends manager poll_interval max_wait_time start_time :
  forall fuel n w r w',
    poll_loop fuel manager poll_interval max_wait_time start_time n w
    = Some (r, w') ->
    sent w' = sent w /\ service w' = service w /\ (polls w <= polls w')%nat /\
    match r with
    | Return payload => completed payload = true
    | Raise e =>
        e = timeout max_wait_time \/
        (exists body, e = workflow_failed body) \/
        (exists status text, e = status_unavailable status text)
    end.
Proof.
  induction fuel as [|fuel IH]; intros n w r w'; [discriminate|].
  rewrite poll_loop_S.
  destruct (clock w - start_time <? max_wait_time).
  2:{ intros [= <- <-]. repeat split; auto. }
  destruct (status_reply manager (S (polls w))) as [body|status error_text].
  2:{ intros [= <- <-]. repeat split; simpl; eauto. }
  destruct (completed body) eqn:Hc.
  { intros [= <- <-]. repeat split; simpl; auto. }
  destruct (failed body).
  { intros [= <- <-]. repeat split; simpl; eauto. }
  intros H. apply IH in H as (Hs & Hv & Hp & Hr). simpl in *.
  repeat split; auto. lia.
Qed.

(** The polling loop makes a status request only while the budget
    lasts, and sleeps after each answer that lets it go on. *)
Lemma poll_loop_bound manager poll_interval max_wait_time start_time :
  forall fuel n w r w',
    poll_loop fuel manager poll_interval max_wait_time start_time n w
    = Some (r, w') ->
    (polls w < polls w')%nat ->
    (Z.of_nat (polls w' - polls w) - 1) * Z.max 0 poll_interval
      + (clock w - start_time) < max_wait_time.
Proof.
  induction fuel as [|fuel IH]; intros n w r w'; [discriminate|].
  rewrite poll_loop_S.
  destruct (Z.ltb_spec (clock w - start_time) max_wait_time) as [Hlt|Hge].
  2:{ intros [= <- <-]. lia. }
  destruct (status_reply manager (S (polls w))) as [body|status error_text].
  2:{ intros [= <- <-] _. simpl. replace (S (polls w) - polls w)%nat with 1%nat by lia. lia. }
  destruct (completed body).
  { intros [= <- <-] _. simpl. replace (S (polls w) - polls w)%nat with 1%nat by lia. lia. }
  destruct (failed body).
  { intros [= <- <-] _. simpl. replace (S (polls w) - polls w)%nat with 1%nat by lia. lia. }
  intros H _.
  pose proof (poll_loop_ends _ _ _ _ _ _ _ _ _ H) as (_ & _ & Hp & _).
  simpl in Hp.
  destruct (Nat.eq_dec (polls w') (S (polls w))) as [E|Hne].
  - rewrite E. replace (S (polls w) - polls w)%nat with 1%nat by lia. lia.
  - apply IH in H; [|simpl; lia]. simpl in H.
    replace (Z.of_nat (polls w' - polls w))
      with (Z.of_nat (polls w' - S (polls w)) + 1) by lia.
    pose proof (N2Z.is_nonneg (request_time manager (S (polls w)))).
    nia.
Qed.

Lemma completed_truthy payload : completed payload = true -> Py.truthy payload = true.
Proof. destruct payload; [discriminate | reflexivity]. Qed.

Lemma client_delete_sent key w r w' :
  Client.delete key w = Some (r, w') ->
  sent w' = DELETE_cache_request key :: sent w /\
  match r with
  | Return _ => True
  | Raise e => e = Exception "Attempt to decode JSON with unexpected mimetype"
  end.
Proof.
  unfold Client.delete, bind, http.
  destruct (Endpoints.DELETE_cache_key _ _ _) as [resp p2].
  unfold Client.response_json.
  destruct (Endpoints.body resp); intros [= <- <-]; simpl; auto.
Qed.

(** [run_workflow_with_cache], step by step. *)
Lemma run_workflow_eq fuel manager inputs w :
  run_workflow_with_cache fuel manager inputs w =
  match trigger_workflow manager w with
  | Some (Return run_id, _) =>
      match inputs !! "accountnumber" with
      | None => Some (Raise (KeyError "accountnumber"), w)
      | Some a =>
          match inputs !! "clientid" with
          | None => Some (Raise (KeyError "clientid"), w)
          | Some c =>
              match Client.health_check w with
              | Some (Return _, w1) =>
                  match poll_until_complete fuel manager 5 3600 w1 with
                  | Some (Return final, w2) =>
                      match Client.delete (a +:+ "-" +:+ c) w2 with
                      | Some (Return _, w3) => Some (Return final, w3)
                      | Some (Raise e, w3) => Some (Raise e, w3)
                      | None => None
                      end
                  | Some (Raise e, w2) => Some (Raise e, w2)
                  | None => None
                  end
              | Some (Raise e, w1) => Some (Raise e, w1)
              | None => None
              end
          end
      end
  | Some (Raise e, _) => Some (Raise e, w)
  | None => None
  end.
Proof.
  unfold run_workflow_with_cache, bind at 1.
  assert (forall x, trigger_workflow manager w = Some x -> snd x = w) as Ht.
  { unfold trigger_workflow. destruct (start_reply manager).
    - destruct (falsy _); intros x [= <-]; reflexivity.
    - intros x [= <-]; reflexivity. }
  destruct (trigger_workflow manager w) as [[[run_id|e] w0]|] eqn:E;
    [| rewrite <- (Ht _ eq_refl); reflexivity | reflexivity].
  pose proof (Ht _ eq_refl) as Hw. simpl in Hw. subst w0.
  unfold bind, inputs_get.
  destruct (inputs !! "accountnumber") as [a|]; [|reflexivity].
  destruct (inputs !! "clientid") as [c|]; [|reflexivity]. simpl.
  destruct (client_health_check w) as (body & p' & Hh & Hn). rewrite Hh, Hn. simpl.
  destruct (poll_until_complete fuel manager 5 3600 _) as [[[final|e] w2]|] eqn:Hp;
    try reflexivity.
  rewrite poll_until_complete_eq in Hp.
  apply poll_loop_ends in Hp as (_ & _ & _ & Hc).
  rewrite (completed_truthy _ Hc). simpl.
  destruct (Client.delete _ w2) as [[[x|e] w3]|]; reflexivity.
Qed.

End RunFacts.

Import Script Workflow WorkflowFacts RunFacts.

(** X19. A run that returns has done its cleanup: whenever
    [run_workflow_with_cache] returns a value, that value is a status
    answer reporting [COMPLETED], and after the health probe exactly
    one request was sent to the cache, the delete of the composite key
    [accountnumber-clientid]. *)
Theorem completed_run_deletes_the_placeholder_key
  (fuel : nat) (manager : remote) (inputs : gmap string string)
  (w w' : world) (final : list (string * json)) :
  run_workflow_with_cache fuel manager inputs w = Some (Return final, w') ->
  completed final = true /\
  exists a c,
    inputs !! "accountnumber" = Some a /\ inputs !! "clientid" = Some c /\
    sent w' = DELETE_cache_request (a +:+ "-" +:+ c)
              :: GET_health_request :: sent w.
Proof.
  rewrite run_workflow_eq.
  destruct (trigger_workflow manager w) as [[[run_id|e] w0]|]; try discriminate.
  destruct (inputs !! "accountnumber") as [a|]; [|discriminate].
  destruct (inputs !! "clientid") as [c|]; [|discriminate].
  destruct (client_health_check w) as (body & p' & Hh & _). rewrite Hh.
  destruct (poll_until_complete fuel manager 5 3600 _) as [[[x|e] w2]|] eqn:Hp;
    try discriminate.
  rewrite poll_until_complete_eq in Hp.
  apply poll_loop_ends in Hp as (Hs & _ & _ & Hc). simpl in Hs.
  destruct (Client.delete _ w2) as [[[y|e] w3]|] eqn:Hd; try discriminate.
  apply client_delete_sent in Hd as [Hd _].
  intros [= <- <-]. split; [exact Hc|].
  exists a, c. rewrite Hd, Hs. auto.
Qed.

Lemma completed_run_deletes_the_placeholder_key_witness :
  exists w',
    run_workflow_with_cache 10 Sample.job Sample.inputs Sample.start
    = Some (Return Sample.completed_payload, w') /\
    completed Sample.completed_payload = true /\
    exists a c,
      Sample.inputs !! "accountnumber" = Some a /\
      Sample.inputs !! "clientid" = Some c /\
      sent w' = DELETE_cache_request (a +:+ "-" +:+ c)
                :: GET_health_request :: sent Sample.start.
Proof.
  eexists. split; [vm_compute; reflexivity|].
  eapply (completed_run_deletes_the_placeholder_key 10 Sample.job Sample.inputs
            Sample.start).
  vm_compute. reflexivity.
Defined.

(** X20. No cleanup after a failure: when [run_workflow_with_cache]
    raises one of the exceptions of the polling loop (the timeout, the
    workflow failure, or a refused status request), the health probe is
    the only request the cache has received; no delete was sent. *)
Theorem failed_run_sends_no_delete
  (fuel : nat) (manager : remote) (inputs : gmap string string)
  (w w' : world) (e : exn) :
  run_workflow_with_cache fuel manager inputs w = Some (Raise e, w') ->
  (e = timeout 3600 \/ (exists body, e = workflow_failed body) \/
   (exists status text, e = status_unavailable status text)) ->
  sent w' = GET_health_request :: sent w /\
  deletes (sent w') = deletes (sent w).
Proof.
  rewrite run_workflow_eq. intros H He.
  assert (forall msg, e = Exception msg ->
                      String.get 0 msg = Some "W"%char \/
                      String.get 10 msg = Some "g"%char) as Hw.
  { intros msg ->.
    destruct He as [He|[[body He]|(status & text & He)]]; [discriminate He| |];
      injection He as ->; [left | right]; reflexivity. }
  unfold trigger_workflow in H.
  destruct (start_reply manager) as [result|status text].
  2:{ injection H as <- <-. destruct (Hw _ eq_refl) as [Hx|Hx]; discriminate Hx. }
  destruct (falsy _).
  { injection H as <- <-. destruct (Hw _ eq_refl) as [Hx|Hx]; discriminate Hx. }
  simpl in H.
  destruct (inputs !! "accountnumber") as [a|].
  2:{ injection H as <- <-.
      destruct He as [He|[[body He]|(status & text & He)]]; discriminate He. }
  destruct (inputs !! "clientid") as [c|].
  2:{ injection H as <- <-.
      destruct He as [He|[[body He]|(status & text & He)]]; discriminate He. }
  destruct (client_health_check w) as (body & p' & Hh & _). rewrite Hh in H.
  destruct (poll_until_complete fuel manager 5 3600 _) as [[[x|e'] w2]|] eqn:Hp;
    try discriminate.
  - destruct (Client.delete _ w2) as [[[y|e''] w3]|] eqn:Hd; try discriminate.
    apply client_delete_sent in Hd as [_ Hd]. injection H as <- <-.
    destruct (Hw _ Hd) as [Hx|Hx]; discriminate Hx.
  - injection H as <- <-. rewrite poll_until_complete_eq in Hp.
    apply poll_loop_ends in Hp as (Hs & _). simpl in Hs.
    rewrite Hs. split; reflexivity.
Qed.

Lemma failed_run_sends_no_delete_witness :
  exists w',
    run_workflow_with_cache 10 Sample.failing_job Sample.inputs Sample.start
    = Some (Raise (workflow_failed Sample.failed_payload), w') /\
    sent w' = GET_health_request :: sent Sample.start /\
    deletes (sent w') = deletes (sent Sample.start).
Proof.
  eexists. split; [vm_compute; reflexivity|].
  eapply (failed_run_sends_no_delete 10 Sample.failing_job Sample.inputs
            Sample.start).
  - vm_compute. reflexivity.
  - right. left. exists Sample.failed_payload. reflexivity.
Defined.

(** X21. Failing to start the workflow is fatal and happens before
    anything else: when the start request is refused, or answered
    without a usable [id], [run_workflow_with_cache] raises at once; it
    sends nothing to the cache and asks for no status. *)
Theorem start_failure_is_fatal
  (fuel : nat) (manager : remote) (inputs : gmap string string) (w : world) :
  match start_reply manager with
  | Ok200 result => falsy (Py.dict_get result "id") = true
  | Failed _ _ => True
  end ->
  exists msg,
    run_workflow_with_cache fuel manager inputs w = Some (Raise (Exception msg), w).
Proof.
  intros H. rewrite run_workflow_eq. unfold trigger_workflow.
  destruct (start_reply manager) as [result|status text].
  - rewrite H. eexists. reflexivity.
  - eexists. reflexivity.
Qed.

Lemma start_failure_is_fatal_witness :
  exists msg,
    run_workflow_with_cache 10 Sample.refusing Sample.inputs Sample.start
    = Some (Raise (Exception msg), Sample.start).
Proof.
  apply (start_failure_is_fatal 10 Sample.refusing Sample.inputs Sample.start).
  simpl. exact I.
Defined.

(** X22. The polling loop respects its budget: a status request is made
    only while less than [max_wait_time] seconds have gone by, so with
    a poll interval of [poll_interval] seconds the requests made number
    at most one more than [max_wait_time / poll_interval], and none at
    all is made when the budget is not positive. *)
Theorem polling_is_bounded_by_the_budget
  (fuel : nat) (manager : remote) (poll_interval max_wait_time : Z)
  (w w' : world) (r : result (list (string * json))) :
  poll_until_complete fuel manager poll_interval max_wait_time w = Some (r, w') ->
  (polls w <= polls w')%nat /\
  ((polls w < polls w')%nat ->
   (Z.of_nat (polls w' - polls w) - 1) * Z.max 0 poll_interval < max_wait_time) /\
  (0 < poll_interval -> 0 <= max_wait_time ->
   Z.of_nat (polls w' - polls w) <= max_wait_time / poll_interval + 1) /\
  (max_wait_time <= 0 -> polls w' = polls w /\ r = Raise (timeout max_wait_time)).
Proof.
  rewrite poll_until_complete_eq. intros H.
  pose proof (poll_loop_ends _ _ _ _ _ _ _ _ _ H) as (_ & _ & Hp & _).
  assert ((polls w < polls w')%nat ->
          (Z.of_nat (polls w' - polls w) - 1) * Z.max 0 poll_interval
          < max_wait_time) as Hb.
  { intros Hlt. pose proof (poll_loop_bound _ _ _ _ _ _ _ _ _ H Hlt). lia. }
  split; [exact Hp|]. split; [exact Hb|]. split.
  - intros Hpi Hmw.
    destruct (Nat.eq_dec (polls w') (polls w)) as [E|Hne].
    + rewrite E, Nat.sub_diag. pose proof (Z.div_pos max_wait_time poll_interval).
      simpl. lia.
    + specialize (Hb ltac:(lia)). rewrite Z.max_r in Hb by lia.
      assert (Z.of_nat (polls w' - polls w) - 1 <= max_wait_time / poll_interval);
        [|lia].
      apply Z.div_le_lower_bound; [lia|]. lia.
  - intros Hmw. destruct fuel as [|fuel]; [discriminate|].
    rewrite poll_loop_S in H.
    destruct (Z.ltb_spec (clock w - clock w) max_wait_time) as [?|_]; [lia|].
    injection H as <- <-. auto.
Qed.

Lemma polling_is_bounded_by_the_budget_witness :
  exists r w',
    poll_until_complete 10 Sample.job 5 3600 Sample.start = Some (r, w') /\
    (polls Sample.start <= polls w')%nat /\
    ((polls Sample.start < polls w')%nat ->
     (Z.of_nat (polls w' - polls Sample.start) - 1) * Z.max 0 5 < 3600) /\
    (0 < 5 -> 0 <= 3600 ->
     Z.of_nat (polls w' - polls Sample.start) <= 3600 / 5 + 1) /\
    (3600 <= 0 -> polls w' = polls Sample.start /\ r = Raise (timeout 3600)).
Proof.
  eexists _, _. split; [vm_compute; reflexivity|].
  eapply (polling_is_bounded_by_the_budget 10 Sample.job 5 3600 Sample.start).
  vm_compute. reflexivity.
Defined.

Module PoolFacts.
Import Text TextFacts Json JsonFacts Cache Endpoints EndpointFacts CacheFacts.
Import Pool.
Local Open Scope py_scope.

Lemma connection_reused p pool :
  redis_pool p = Some pool -> get_redis_connection p = (Return pool, p).
Proof. intros H. unfold get_redis_connection. rewrite H. reflexivity. Qed.

Lemma connection_stored p pool p' :
  get_redis_connection p = (Return pool, p') -> redis_pool p' = Some pool.
Proof.
  unfold get_redis_connection. destruct (redis_pool p) as [q|] eqn:E.
  - intros [= <- <-]. exact E.
  - destruct from_url; intros [= <- <-]. reflexivity.
Qed.

Lemma stable_ret {A} pool (a : A) : stable pool (ret a).
Proof. intros p H. exact H. Qed.

Lemma stable_raise {A} pool e : stable pool (@raise A e).
Proof. intros p H. exact H. Qed.

Lemma stable_lift {A} pool (r : result A) : stable pool (lift r).
Proof. intros p H. exact H. Qed.

Lemma stable_await {A} pool (cmd : Redis.server -> result A * Redis.server) :
  stable pool (await cmd).
Proof. intros p H. unfold await. destruct (cmd (backend p)). exact H. Qed.

Lemma stable_connection pool : stable pool get_redis_connection.
Proof. intros p H. rewrite (connection_reused _ _ H). exact H. Qed.

Lemma stable_bind {A B} pool (m : M A) (k : A -> M B) :
  stable pool m -> (forall a, stable pool (k a)) -> stable pool (bind m k).
Proof.
  intros Hm Hk p H. unfold bind. specialize (Hm p H).
  destruct (m p) as [[a|e] p1]; simpl in *; [apply Hk; exact Hm | exact Hm].
Qed.

Lemma stable_try {A} pool (m : M A) (h : exn -> M A) :
  stable pool m -> (forall e, stable pool (h e)) -> stable pool (try_except m h).
Proof.
  intros Hm Hh p H. unfold try_except. specialize (Hm p H).
  destruct (m p) as [[a|e] p1]; simpl in *; [exact Hm | apply Hh; exact Hm].
Qed.

Ltac keeps_pool :=
  repeat first
    [ apply stable_try | apply stable_bind | apply stable_connection
    | apply stable_await | apply stable_ret | apply stable_raise
    | apply stable_lift | progress cbv beta zeta
    | match goal with |- forall _, _ => intro end
    | match goal with
      | |- stable _ (match ?x with _ => _ end) => destruct x
      | |- stable _ (if ?x then _ else _) => destruct x
      end ].

Lemma store_keeps_pool pool now item p :
  redis_pool p = Some pool -> redis_pool (snd (store_in_cache now item p)) = Some pool.
Proof. revert p. change (stable pool (store_in_cache now item)). unfold store_in_cache. keeps_pool. Qed.

Lemma get_keeps_pool pool now key p :
  redis_pool p = Some pool -> redis_pool (snd (get_from_cache now key p)) = Some pool.
Proof. revert p. change (stable pool (get_from_cache now key)). unfold get_from_cache. keeps_pool. Qed.

Lemma delete_keeps_pool pool now key p :
  redis_pool p = Some pool -> redis_pool (snd (delete_from_cache now key p)) = Some pool.
Proof. revert p. change (stable pool (delete_from_cache now key)). unfold delete_from_cache. keeps_pool. Qed.

Lemma exists_keeps_pool pool now key p :
  redis_pool p = Some pool -> redis_pool (snd (check_key_exists now key p)) = Some pool.
Proof. revert p. change (stable pool (check_key_exists now key)). unfold check_key_exists. keeps_pool. Qed.

Lemma list_keeps_pool pool now pattern p :
  redis_pool p = Some pool -> redis_pool (snd (list_cache_keys now pattern p)) = Some pool.
Proof. revert p. change (stable pool (list_cache_keys now pattern)). unfold list_cache_keys. keeps_pool. Qed.

Lemma bulk_keeps_pool pool now items p :
  redis_pool p = Some pool ->
  redis_pool (snd (store_bulk_in_cache now items p)) = Some pool.
Proof. revert p. change (stable pool (store_bulk_in_cache now items)). unfold store_bulk_in_cache. keeps_pool. Qed.

Lemma health_keeps_pool pool now p :
  redis_pool p = Some pool -> redis_pool (snd (health_check now p)) = Some pool.
Proof. revert p. change (stable pool (health_check now)). unfold health_check. keeps_pool. Qed.

End PoolFacts.

Import Text TextFacts Json JsonFacts Cache Endpoints EndpointFacts CacheFacts.
Import Pool PoolFacts.

(** X23. The connection pool is built once: the first successful
    [get_redis_connection] stores its pool in the process, every later
    call returns that same pool without building another, and no
    handler replaces or drops it. *)
Theorem pool_is_built_once
  (p p' : process) (pool : ConnectionPool) (now : Py.instant)
  (item : Item.CacheItem) (items : list Item.CacheItem) (key pattern : string) :
  get_redis_connection p = (Return pool, p') ->
  redis_pool p' = Some pool /\
  get_redis_connection p' = (Return pool, p') /\
  redis_pool (snd (store_in_cache now item p')) = Some pool /\
  redis_pool (snd (get_from_cache now key p')) = Some pool /\
  redis_pool (snd (delete_from_cache now key p')) = Some pool /\
  redis_pool (snd (check_key_exists now key p')) = Some pool /\
  redis_pool (snd (list_cache_keys now pattern p')) = Some pool /\
  redis_pool (snd (store_bulk_in_cache now items p')) = Some pool /\
  redis_pool (snd (health_check now p')) = Some pool.
Proof.
  intros Hc. pose proof (connection_stored _ _ _ Hc) as H.
  split; [exact H|]. split; [apply connection_reused, H|].
  split; [apply store_keeps_pool, H|]. split; [apply get_keeps_pool, H|].
  split; [apply delete_keeps_pool, H|]. split; [apply exists_keeps_pool, H|].
  split; [apply list_keeps_pool, H|]. split; [apply bulk_keeps_pool, H|].
  apply health_keeps_pool, H.
Qed.

Lemma pool_is_built_once_witness :
  exists pool p',
    get_redis_connection Sample.fresh = (Return pool, p') /\
    redis_pool p' = Some pool /\
    get_redis_connection p' = (Return pool, p').
Proof.
  eexists _, _. split; [reflexivity|].
  destruct (pool_is_built_once Sample.fresh _ _ 0
              {| Item.key := "k"; Item.data := []; Item.ttl_seconds := None |}
              [] "k" "*" eq_refl) as (H1 & H2 & _).
  split; assumption.
Defined.
